(** * Simulador de ecuaciones diferenciales

    A shallow embedding of [src/models.py] (the model classes [Modelo],
    [CrecimientoExponencial], [EnfriamientoNewton], [CircuitoRL], [Mezclas])
    and of the simulation entry point [SimuladorApp.simular] of
    [src/utils.py], together with the properties the specification states
    about them.

    Conventions of the embedding.
    - A Python [float] is read as a real number: arithmetic is exact, there is
      no rounding, no overflow, no [nan] and no [inf] ([float('inf')] is kept
      as a separate case where the source builds it).  [np.exp] is [exp].
    - A Python exception is a value of [py_exn]; code that can raise returns
      in the error monad [py].
    - A [while] loop runs on a budget of iterations computed from its
      arguments ([Mezclas.euler_budget]); the budget is proved sufficient
      ([euler_ok]).
    - numpy arrays are lists; the numpy functions the source calls are
      written out below with the behaviour numpy documents for them. *)

From Stdlib Require Import Reals Lra Lia List String Ascii ZArith Bool.
From Stdlib Require Import Zfloor DecimalString.
Import ListNotations.

Open Scope string_scope.
Open Scope list_scope.
Open Scope R_scope.

Abbreviation float := R (only parsing).

(** ** Exceptions and the error monad *)

Inductive py_exn : Type :=
| ValueError (msg : string)
| ZeroDivisionError
| IndexError
| OutOfBudget.  (* not a Python exception: a loop of the model ran out of budget *)

Definition py (A : Type) : Type := (py_exn + A)%type.

Definition ret {A : Type} (a : A) : py A := inr a.
Definition raise {A : Type} (e : py_exn) : py A := inl e.
Definition bind {A B : Type} (c : py A) (f : A -> py B) : py B :=
  match c with
  | inl e => inl e
  | inr a => f a
  end.

Notation "x <- c ;; k" := (bind c (fun x => k))
  (at level 61, c at next level, right associativity).

(** [[f(x) for x in xs]]: the first exception stops the comprehension. *)
Fixpoint map_py {A B : Type} (f : A -> py B) (xs : list A) : py (list B) :=
  match xs with
  | [] => ret []
  | x :: xs' => y <- f x ;; ys <- map_py f xs' ;; ret (y :: ys)
  end.

(** ** Python scalar operations *)

(** [x / y] on Python floats. *)
Definition py_div (x y : float) : py float :=
  if Req_dec_T y 0 then raise ZeroDivisionError else ret (x / y).

(** [xs[-1]]. *)
Definition py_last (xs : list float) : py float :=
  match xs with
  | [] => raise IndexError
  | x :: xs' => ret (last xs' x)
  end.

(** ** The numpy functions used by the source *)

(** [np.diff]. *)
Fixpoint np_diff (xs : list float) : list float :=
  match xs with
  | x0 :: ((x1 :: _) as tl) => (x1 - x0) :: np_diff tl
  | _ => []
  end.

Definition np_sum (xs : list float) : float := fold_right Rplus 0 xs.

(** [np.mean] of a non-empty array. *)
Definition np_mean (xs : list float) : float := np_sum xs / INR (List.length xs).

(** [np.max] and [np.min] of the array [x :: xs]. *)
Definition np_max (x : float) (xs : list float) : float := fold_left Rmax xs x.
Definition np_min (x : float) (xs : list float) : float := fold_left Rmin xs x.

(** [a[mask]] for a boolean [mask]: the lengths must agree. *)
Fixpoint np_mask (xs : list float) (mask : list bool) : py (list float) :=
  match xs, mask with
  | [], [] => ret []
  | x :: xs', b :: mask' =>
      r <- np_mask xs' mask' ;; ret (if b then x :: r else r)
  | _, _ => raise IndexError
  end.

(** [np.where(mask)[0]]: the indices at which [mask] holds, from [i] on. *)
Fixpoint np_where_from (i : nat) (mask : list bool) : list nat :=
  match mask with
  | [] => []
  | b :: mask' =>
      if b then i :: np_where_from (S i) mask' else np_where_from (S i) mask'
  end.

Definition np_where (mask : list bool) : list nat := np_where_from 0 mask.

(** [np.arange(start, stop, step)]: [ceil((stop - start) / step)] values
    [start + i * step]; a zero step is a division by zero. *)
Definition np_arange (start stop step : float) : py (list float) :=
  if Req_dec_T step 0 then raise ZeroDivisionError
  else
    let n := Z.to_nat (Zceil ((stop - start) / step)) in
    ret (map (fun i => start + INR i * step) (seq 0 n)).

(** [np.linspace(start, stop, num)] for [num > 1], end point included. *)
Definition np_linspace (start stop : float) (num : nat) : list float :=
  let step := (stop - start) / INR (num - 1) in
  map (fun i => start + INR i * step) (seq 0 num).

(** ** Formatting: [f"{x:.df}"] *)

Definition round_half_even (x : float) : Z :=
  let f := Zfloor x in
  let r := x - IZR f in
  if Rlt_dec r (1 / 2) then f
  else if Rlt_dec (1 / 2) r then (f + 1)%Z
  else if Z.even f then f else (f + 1)%Z.

Definition string_of_nat (n : nat) : string :=
  NilZero.string_of_uint (Nat.to_uint n).

Fixpoint zeros (n : nat) : string :=
  match n with
  | O => EmptyString
  | S n' => String "0"%char (zeros n')
  end.

(** [x] with [d] digits after the point, as Python's fixed-point format
    prints it. *)
Definition format_f (d : nat) (x : float) : string :=
  let scaled := Z.to_nat (round_half_even (Rabs x * 10 ^ d)) in
  let whole := string_of_nat (scaled / 10 ^ d) in
  let frac := string_of_nat (scaled mod 10 ^ d) in
  let sign := if Rlt_dec x 0 then "-"%string else EmptyString in
  match d with
  | O => (sign ++ whole)%string
  | _ => (sign ++ whole ++ "." ++ zeros (d - String.length frac) ++ frac)%string
  end.

(** A float that may be [float('inf')]. *)
Definition format_f_inf (d : nat) (x : option float) : string :=
  match x with
  | Some v => format_f d v
  | None => "inf"%string
  end.

(** ** Comparisons as booleans *)

Definition Rltb (x y : float) : bool := if Rlt_dec x y then true else false.
Definition Rleb (x y : float) : bool := if Rle_dec x y then true else false.
Definition Reqb (x y : float) : bool := if Req_dec_T x y then true else false.

(** Element-wise [a / b] on arrays: numpy does not raise here. *)
Definition np_divide (xs ys : list float) : list float :=
  map (fun p => fst p / snd p) (combine xs ys).

Definition fstr (parts : list string) : string := String.concat "" parts.

(** ** [class Modelo]: what every model inherits *)

Module Modelo.

(** The dictionary that [get_estadisticas] fills; [{}] is [None]. *)
Record Stats : Type := mkStats {
  promedio : float;
  maximo : float;
  minimo : float;
  tasa_cambio : float;
  tiempo_equilibrio : float
}.

Definition name : string := "Modelo Base".

(** [simular(t_max, dt)], over the [calcular] of the subclass. *)
Definition simular (calcular : float -> py float) (t_max dt : float)
  : py (list float * list float) :=
  t_values <- np_arange 0 (t_max + dt) dt ;;
  y_values <- map_py calcular t_values ;;
  ret (t_values, y_values).

(** The average rate of change (lines 49-57).  Every rate has a positive
    denominator, so [np.isfinite] keeps them all. *)
Definition tasa_cambio_promedio (t_values y_values : list float) : py float :=
  if ((1 <? List.length y_values)%nat && (1 <? List.length t_values)%nat)%bool then
    let delta_y := np_diff y_values in
    let delta_t := np_diff t_values in
    let valid_dt := map (fun d => Rltb 0 d) delta_t in
    if existsb (fun b => b) valid_dt then
      num <- np_mask delta_y valid_dt ;;
      den <- np_mask delta_t valid_dt ;;
      ret (np_mean (np_divide num den))
    else ret 0
  else ret 0.

(** [is_steady] (lines 62-67). *)
Definition is_steady (y_values : list float) : list bool :=
  let abs_changes := map Rabs (np_diff y_values) in
  let scale := map (fun y => Rmax (Rabs y) 1e-10) (tl y_values) in
  let rel_changes :=
    map (fun p => if Rltb 0 (snd p) then fst p / snd p else 0)
        (combine abs_changes scale) in
  map (fun p => (Rltb (fst p) 0.01 || Rltb (snd p) 1e-6)%bool)
      (combine rel_changes abs_changes).

(** The equilibrium time (lines 59-75), starting from the value [te] the
    dictionary already holds. *)
Definition equilibrio (t_values y_values : list float) (te : float) : float :=
  if (2 <? List.length y_values)%nat then
    match np_where (is_steady y_values) with
    | i :: _ =>
        let first_steady := (i + 1)%nat in
        if (first_steady <? List.length t_values)%nat
        then nth first_steady t_values 0
        else te
    | [] => te
    end
  else te.

Definition get_estadisticas (t_values y_values : list float)
  : py (option Stats) :=
  match y_values, t_values with
  | [], _ => ret None
  | _, [] => ret None
  | y0 :: ys, t0 :: ts =>
      let stats := {| promedio := np_mean y_values;
                      maximo := np_max y0 ys;
                      minimo := np_min y0 ys;
                      tasa_cambio := 0;
                      tiempo_equilibrio := last ts t0 |} in
      tasa <- tasa_cambio_promedio t_values y_values ;;
      ret (Some {| promedio := promedio stats;
                   maximo := maximo stats;
                   minimo := minimo stats;
                   tasa_cambio := tasa;
                   tiempo_equilibrio :=
                     equilibrio t_values y_values (tiempo_equilibrio stats) |})
  end.

Definition get_interpretacion (t_values y_values : list float) : string :=
  EmptyString.

End Modelo.

(** ** [class CrecimientoExponencial] *)

Module CrecimientoExponencial.

Record model : Type := mk { P0 : float; k : float }.

Definition init (P0 k : float) : py model := ret (mk P0 k).

Definition name : string := "Crecimiento Exponencial".

Definition calcular (self : model) (t : float) : float :=
  P0 self * exp (k self * t).

Definition get_interpretacion (self : model) (t_values y_values : list float)
  : string :=
  if Rltb 0 (k self) then
    fstr ["El sistema muestra un crecimiento exponencial con tasa ";
          format_f 4 (k self); "."]
  else if Rltb (k self) 0 then
    fstr ["El sistema muestra un decaimiento exponencial con tasa ";
          format_f 4 (Rabs (k self)); "."]
  else "El sistema permanece constante en el tiempo.".

End CrecimientoExponencial.

(** ** [class EnfriamientoNewton] *)

Module EnfriamientoNewton.

Record model : Type := mk { T0 : float; Ta : float; k : float }.

Definition init (T0 Ta k : float) : py model :=
  if Rleb k 0 then
    raise (ValueError "La constante de enfriamiento (k) debe ser mayor que 0")
  else if Reqb T0 Ta then
    raise (ValueError
      "La temperatura inicial no puede ser igual a la temperatura ambiente")
  else ret (mk T0 Ta k).

Definition name : string := "Ley de Enfriamiento".

Definition calcular (self : model) (t : float) : float :=
  if Rltb t 0 then T0 self
  else Ta self + (T0 self - Ta self) * exp (- k self * t).

Definition get_interpretacion (self : model) (t_values y_values : list float)
  : py string :=
  stats <- Modelo.get_estadisticas t_values y_values ;;
  let tiempo_estabilizacion :=
    match stats with
    | Some st => Modelo.tiempo_equilibrio st
    | None => 0
    end in
  ret (fstr ["El sistema se enfría de "; format_f 1 (T0 self);
             "°C hacia la temperatura ambiente "; format_f 1 (Ta self);
             "°C. Se estabiliza en aproximadamente ";
             format_f 1 tiempo_estabilizacion; " unidades de tiempo."]).

End EnfriamientoNewton.

(** ** [class CircuitoRL] *)

Module CircuitoRL.

Record model : Type := mk { E : float; R : float; L : float }.

Definition init (E R L : float) : py model := ret (mk E R L).

Definition name : string := "Circuito RL".

Definition calcular (self : model) (t : float) : py float :=
  if (Reqb (R self) 0 || Reqb (L self) 0)%bool then ret 0
  else
    i_max <- py_div (E self) (R self) ;;
    x <- py_div (- R self * t) (L self) ;;
    ret (i_max * (1 - exp x)).

Definition get_interpretacion (self : model) (t_values y_values : list float)
  : py string :=
  if Rltb 0 (L self) then
    tau <- (if negb (Reqb (R self) 0)
            then v <- py_div (L self) (R self) ;; ret (Some v)
            else ret None) ;;
    i_max <- (if negb (Reqb (R self) 0)
              then v <- py_div (E self) (R self) ;; ret (Some v)
              else ret None) ;;
    ret (fstr ["El circuito RL tiene una constante de tiempo τ = ";
               format_f_inf 2 tau;
               ". La corriente máxima teórica es ";
               format_f_inf 2 i_max; " A."])
  else ret EmptyString.

End CircuitoRL.

(** ** [class Mezclas] *)

Module Mezclas.

Record model : Type := mk {
  V0 : float;
  C0 : float;
  r_in : float;
  C_in : float;
  r_out : float;
  volumen_constante : bool
}.

Definition init (V0 C0 r_in C_in r_out : float) : py model :=
  if Rleb V0 0 then
    raise (ValueError "El volumen inicial del tanque debe ser mayor que 0")
  else if Rltb C0 0 then
    raise (ValueError "La concentración inicial no puede ser negativa")
  else if (Rltb r_in 0 || Rltb r_out 0)%bool then
    raise (ValueError "Los caudales no pueden ser negativos")
  else if Rltb C_in 0 then
    raise (ValueError "La concentración de entrada no puede ser negativa")
  else
    ret (mk V0 C0 r_in C_in r_out (Rltb (Rabs (r_in - r_out)) 1e-10)).

Definition name : string := "Modelo de Mezclas".

(** The variables of the integration loop (lines 243-245). *)
Record euler_state : Type := mkState {
  current_t : float;
  current_A : float;
  current_V : float
}.

(** One pass through the body of the loop, lines 251-268. *)
Definition euler_step (self : model) (t dt : float) (s : euler_state)
  : py euler_state :=
  let dt_step := Rmin dt (t - current_t s) in
  AV <- (if Rltb 0 (current_V s) then
           conc <- py_div (current_A s) (current_V s) ;;
           let dA_dt := r_in self * C_in self - r_out self * conc in
           let A1 := current_A s + dA_dt * dt_step in
           let V1 := current_V s + (r_in self - r_out self) * dt_step in
           ret (Rmax 0 A1, Rmax 0 V1)
         else ret (current_A s, current_V s)) ;;
  let t1 := current_t s + dt_step in
  let A2 := if Rltb (Rabs (fst AV)) 1e-10 then 0 else fst AV in
  ret (mkState t1 A2 (snd AV)).

(** The loop of lines 247-270.  It returns the value the source returns
    and, beside it, the states reached after each integration step. *)
Fixpoint euler_loop (self : model) (t dt : float) (budget : nat)
    (s : euler_state) : py (float * list euler_state) :=
  if Rltb (current_t s) t then
    match budget with
    | O => raise OutOfBudget
    | S budget' =>
        if Rleb (current_V s) 0 then ret (0, [])
        else
          s' <- euler_step self t dt s ;;
          r <- euler_loop self t dt budget' s' ;;
          ret (fst r, s' :: snd r)
    end
  else ret (current_A s, []).

(** Iterations granted to the loop: with steps of [dt] the time [t] is
    reached after [ceil(t / dt)] of them. *)
Definition euler_budget (t dt : float) : nat := Z.to_nat (Zceil (t / dt)).

(** The numerical branch of [calcular], lines 242-270. *)
Definition euler (self : model) (t : float) : py (float * list euler_state) :=
  let dt := Rmin 0.1 (t / 1000) in
  euler_loop self t dt (euler_budget t dt)
    (mkState 0 (C0 self * V0 self) (V0 self)).

Definition calcular (self : model) (t : float) : py float :=
  if Rleb t 0 then ret (C0 self * V0 self)
  else if volumen_constante self then
    if Reqb (r_out self) 0 then ret (C0 self * V0 self)
    else
      A_ss <- (if negb (Reqb (r_out self) 0)
               then py_div (r_in self * C_in self * V0 self) (r_out self)
               else ret 0) ;;
      let A0 := C0 self * V0 self in
      k <- py_div (r_out self) (V0 self) ;;
      let A_t := A_ss + (A0 - A_ss) * exp (- k * t) in
      ret (Rmax 0 A_t)
  else
    if (Reqb (r_in self) 0 && Reqb (r_out self) 0)%bool
    then ret (C0 self * V0 self)
    else
      r <- euler self t ;;
      ret (fst r).

Definition get_interpretacion (self : model) (t_values y_values : list float)
  : py string :=
  match y_values with
  | [] => ret "No hay datos de simulación disponibles."
  | _ :: _ =>
      final_amount <- py_last y_values ;;
      final_vol <- (match t_values with
                    | _ :: _ =>
                        t_end <- py_last t_values ;;
                        ret (V0 self + (r_in self - r_out self) * t_end)
                    | [] => ret (V0 self)
                    end) ;;
      final_conc <- (if Rltb 0 final_vol
                     then py_div final_amount final_vol
                     else ret 0) ;;
      if volumen_constante self then
        if Rltb 0 (r_out self) then
          tau <- py_div (V0 self) (r_out self) ;;
          A_ss <- py_div (r_in self * C_in self * V0 self) (r_out self) ;;
          C_ss <- py_div A_ss (V0 self) ;;
          t_end <- py_last t_values ;;
          ret (fstr [
            "SISTEMA DE MEZCLAS (VOLUMEN CONSTANTE)
"; "• Volumen: "; format_f 2 (V0 self); " L (constante)
"; "• Flujo de entrada: "; format_f 2 (r_in self); " L/min, Conc: ";
            format_f 4 (C_in self); " g/L
"; "• Flujo de salida: "; format_f 2 (r_out self); " L/min
"; "• Tiempo característico (τ): "; format_f 2 tau; " min

"; "CONDICIONES INICIALES
"; "• Cantidad inicial (A₀): "; format_f 2 (C0 self * V0 self); " g
"; "• Concentración inicial (C₀): "; format_f 4 (C0 self); " g/L

"; "ESTADO ESTACIONARIO TEÓRICO
"; "• Cantidad (A_ss): "; format_f 2 A_ss; " g
"; "• Concentración (C_ss): "; format_f 4 C_ss; " g/L

"; "RESULTADOS FINALES (t = "; format_f 1 t_end; " min)
"; "• Cantidad final: "; format_f 2 final_amount; " g
"; "• Concentración final: "; format_f 4 final_conc; " g/L"])
        else
          ret "Sistema sin flujo de salida. La cantidad de soluto no cambia con el tiempo."
      else
        t_end <- py_last t_values ;;
        ret (fstr [
          "SISTEMA DE MEZCLAS (VOLUMEN VARIABLE)
"; "• Volumen inicial: "; format_f 2 (V0 self); " L
"; "• Flujo de entrada: "; format_f 2 (r_in self); " L/min, Conc: ";
          format_f 4 (C_in self); " g/L
"; "• Flujo de salida: "; format_f 2 (r_out self); " L/min
"; "• Tasa de cambio de volumen: ";
          format_f 2 (r_in self - r_out self); " L/min

"; "CONDICIONES INICIALES
"; "• Cantidad inicial (A₀): "; format_f 2 (C0 self * V0 self); " g
"; "• Concentración inicial (C₀): "; format_f 4 (C0 self); " g/L

"; "RESULTADOS FINALES (t = "; format_f 1 t_end; " min)
"; "• Volumen final: "; format_f 2 final_vol; " L
"; "• Cantidad final: "; format_f 2 final_amount; " g
"; "• Concentración final: "; format_f 4 final_conc; " g/L"])
  end.

End Mezclas.

(** ** Objects of the four classes, and method dispatch *)

Inductive modelo : Type :=
| Crecimiento (m : CrecimientoExponencial.model)
| Enfriamiento (m : EnfriamientoNewton.model)
| Circuito (m : CircuitoRL.model)
| Mezcla (m : Mezclas.model).

Definition name (self : modelo) : string :=
  match self with
  | Crecimiento _ => CrecimientoExponencial.name
  | Enfriamiento _ => EnfriamientoNewton.name
  | Circuito _ => CircuitoRL.name
  | Mezcla _ => Mezclas.name
  end.

Definition calcular (self : modelo) (t : float) : py float :=
  match self with
  | Crecimiento m => ret (CrecimientoExponencial.calcular m t)
  | Enfriamiento m => ret (EnfriamientoNewton.calcular m t)
  | Circuito m => CircuitoRL.calcular m t
  | Mezcla m => Mezclas.calcular m t
  end.

(** [simular] is inherited from [Modelo]; the default step is [0.1]. *)
Definition simular (self : modelo) (t_max dt : float)
  : py (list float * list float) :=
  Modelo.simular (calcular self) t_max dt.

Definition get_estadisticas (self : modelo) (t_values y_values : list float)
  : py (option Modelo.Stats) :=
  Modelo.get_estadisticas t_values y_values.

Definition get_interpretacion (self : modelo) (t_values y_values : list float)
  : py string :=
  match self with
  | Crecimiento m =>
      ret (CrecimientoExponencial.get_interpretacion m t_values y_values)
  | Enfriamiento m => EnfriamientoNewton.get_interpretacion m t_values y_values
  | Circuito m => CircuitoRL.get_interpretacion m t_values y_values
  | Mezcla m => Mezclas.get_interpretacion m t_values y_values
  end.

(** ** [class SimuladorApp]: the simulation behind the "Simular" button *)

Module SimuladorApp.

(** The dictionary [obtener_parametros] returns, by selected model. *)
Inductive params : Type :=
| crecimiento (P0 k t_max : float)
| enfriamiento (T0 Ta k t_max : float)
| circuito_rl (E R L t_max : float)
| mezclas (V0 C0 r_in C_in r_out t_max : float).

Definition t_max (p : params) : float :=
  match p with
  | crecimiento _ _ tm => tm
  | enfriamiento _ _ _ tm => tm
  | circuito_rl _ _ _ tm => tm
  | mezclas _ _ _ _ _ tm => tm
  end.

Definition crear_modelo (p : params) : py modelo :=
  match p with
  | crecimiento P0 k _ =>
      m <- CrecimientoExponencial.init P0 k ;; ret (Crecimiento m)
  | enfriamiento T0 Ta k _ =>
      m <- EnfriamientoNewton.init T0 Ta k ;; ret (Enfriamiento m)
  | circuito_rl E R L _ =>
      m <- CircuitoRL.init E R L ;; ret (Circuito m)
  | mezclas V0 C0 r_in C_in r_out _ =>
      m <- Mezclas.init V0 C0 r_in C_in r_out ;; ret (Mezcla m)
  end.

(** One entry of [self.simulaciones]. *)
Record simulacion : Type := mkSim {
  t_values : list float;
  y_values : list float;
  nombre : string;
  stats : option Modelo.Stats;
  interpretacion : string
}.

(** The [try] block of [simular] (lines 528-536): an exception [e] ends
    in the [except] clause, which shows [e] and stores nothing. *)
Definition simular (p : params) : py simulacion :=
  m <- crear_modelo p ;;
  let ts := np_linspace 0 (t_max p) 1000 in
  ys <- map_py (calcular m) ts ;;
  st <- get_estadisticas m ts ys ;;
  txt <- get_interpretacion m ts ys ;;
  ret (mkSim ts ys (name m) st txt).

End SimuladorApp.

(** ** [class SimuladorApp]: the results panels *)

Module Paneles.

(** [d.get(key, default)] on a dictionary with string keys. *)
Fixpoint dict_get {V : Type} (d : list (string * V)) (key : string)
    (default : V) : V :=
  match d with
  | [] => default
  | (k, v) :: d' => if (k =? key)%string then v else dict_get d' key default
  end.

(** The dictionary [get_estadisticas] returns, key by key; [{}] has none. *)
Definition stats_items (stats : option Modelo.Stats) : list (string * float) :=
  match stats with
  | None => []
  | Some st =>
      [("promedio", Modelo.promedio st);
       ("maximo", Modelo.maximo st);
       ("minimo", Modelo.minimo st);
       ("tasa_cambio", Modelo.tasa_cambio st);
       ("tiempo_equilibrio", Modelo.tiempo_equilibrio st)]
  end.

(** [stats.get(key, default)]. *)
Definition stats_get (stats : option Modelo.Stats) (key : string)
    (default : float) : float :=
  dict_get (stats_items stats) key default.

(** [obtener_interpretacion_modelo(modelo, stats)], lines 798-828. *)
Definition obtener_interpretacion_modelo (modelo : string)
    (stats : option Modelo.Stats) : string :=
  match stats_items stats with
  | [] => "No hay datos suficientes para generar una interpretación."
  | _ :: _ =>
      let interpretaciones := [
        ("crecimiento",
         fstr ["El modelo muestra un crecimiento exponencial con una tasa de ";
               format_f 4 (stats_get stats "tasa_cambio" 0); " ";
               "unidades por segundo. ";
               "El valor máximo alcanzado fue ";
               format_f 2 (stats_get stats "maximo" 0); " ";
               "y el valor mínimo fue ";
               format_f 2 (stats_get stats "minimo" 0); "."]);
        ("enfriamiento",
         fstr ["El objeto se enfría desde ";
               format_f 1 (stats_get stats "T0" 0);
               "°C hacia la temperatura ambiente de ";
               format_f 1 (stats_get stats "Ta" 0); "°C. ";
               "El tiempo de estabilización fue de ";
               format_f 1 (stats_get stats "tiempo_equilibrio" 0);
               " segundos. ";
               "La tasa de enfriamiento inicial fue de ";
               format_f 4 (Rabs (stats_get stats "tasa_cambio" 0));
               "°C/seg."]);
        ("circuito_rl",
         fstr ["El circuito alcanza aproximadamente el ";
               format_f 1 (stats_get stats "porcentaje_estado_estable" 0);
               "% de su corriente máxima "; "de ";
               format_f 4 (stats_get stats "corriente_maxima" 0); "A. ";
               "La constante de tiempo (τ = L/R) es de ";
               format_f 4 (stats_get stats "constante_tiempo" 0);
               " segundos. ";
               "El tiempo de establecimiento (5τ) es de ";
               format_f 4 (stats_get stats "tiempo_establecimiento" 0);
               " segundos."]);
        ("mezclas",
         fstr ["La concentración en el tanque tiende a ";
               format_f 4 (stats_get stats "concentracion_equilibrio" 0);
               " g/L. ";
               "El tiempo para alcanzar el 95% del equilibrio es de ";
               format_f 2 (stats_get stats "tiempo_95_por_ciento" 0);
               " segundos. ";
               "La tasa de cambio inicial es de ";
               format_f 6 (stats_get stats "tasa_cambio_inicial" 0);
               " (g/L)/s."])] in
      dict_get interpretaciones modelo
        "Interpretación no disponible para este modelo."
  end.

(** [x / y] with a numpy scalar [x]: no exception, a zero divisor gives
    [inf] ([None]). *)
Definition np_true_divide (x y : float) : option float :=
  if Reqb y 0 then None else Some (x / y).

(** The text [actualizar_interpretacion] writes for one stored simulation
    (lines 836-874). *)
Definition texto_detallado (nombre_modelo : string)
    (stats : option Modelo.Stats) (interpretacion : string) : string :=
  let cabecera := fstr [interpretacion; "

ANÁLISIS DETALLADO:
"] in
  let analisis :=
    if (nombre_modelo =? "Crecimiento Exponencial")%string then
      fstr ["
• La población crece exponencialmente con una tasa de ";
            format_f 4 (stats_get stats "tasa_crecimiento" 0); ".
• Se duplica cada ";
            format_f_inf 2
              (np_true_divide (ln 2) (stats_get stats "tasa_crecimiento" 0.0001));
            " unidades de tiempo.
• El crecimiento es ilimitado en este modelo teórico."]
    else if (nombre_modelo =? "Ley de Enfriamiento")%string then
      fstr ["
• La temperatura desciende desde ";
            format_f 1 (stats_get stats "T0" 0); "°C hacia ";
            format_f 1 (stats_get stats "Ta" 0); "°C.
• La diferencia de temperatura se reduce a la mitad cada ";
            format_f_inf 2
              (np_true_divide (ln 0.5) (- stats_get stats "k" 0.0001));
            " segundos.
• La tasa de enfriamiento es proporcional a la diferencia de temperatura."]
    else if (nombre_modelo =? "Circuito RL")%string then
      fstr ["
• La corriente máxima teórica es ";
            format_f 4 (stats_get stats "corriente_maxima" 0); "A.
• Constante de tiempo (τ = L/R): ";
            format_f 4 (stats_get stats "constante_tiempo" 0); "s.
• Tiempo de establecimiento (5τ): ";
            format_f 4 (stats_get stats "tiempo_establecimiento" 0); "s."]
    else if (nombre_modelo =? "Modelo de Mezclas")%string then
      fstr ["
• Concentración de entrada: ";
            format_f 2 (stats_get stats "concentracion_entrada" 0); "g/L.
• Tiempo característico (V/r): ";
            format_f 2 (stats_get stats "tiempo_caracteristico" 0); "s.
• Concentración de equilibrio: ";
            format_f 4 (stats_get stats "concentracion_equilibrio" 0); "g/L."]
    else EmptyString in
  fstr [cabecera; analisis; "

RECOMENDACIONES:
• Utilice el botón 'Comparar' para analizar diferentes escenarios.
• Exporte los datos a Excel para un análisis más detallado.
• Ajuste los parámetros para observar cómo afectan al comportamiento del sistema."].

(** [actualizar_interpretacion]: the text written to the widget, from the
    last stored simulation; [None] when there is none and the widget is
    left alone. *)
Definition actualizar_interpretacion
    (simulaciones : list SimuladorApp.simulacion) : option string :=
  match simulaciones with
  | [] => None
  | s0 :: rest =>
      let s := last rest s0 in
      Some (texto_detallado (SimuladorApp.nombre s) (SimuladorApp.stats s)
              (SimuladorApp.interpretacion s))
  end.

(** The values of the read-only row selector of the table (line 621). *)
Inductive filas : Type := Filas10 | Filas20 | Filas50 | Filas100 | Todas.

Definition texto_filas (f : filas) : string :=
  match f with
  | Filas10 => "10"
  | Filas20 => "20"
  | Filas50 => "50"
  | Filas100 => "100"
  | Todas => "Todas"
  end.

(** [int(s)] for a string of decimal digits; anything else is a
    [ValueError].  On the strings of the selector this is Python's [int]. *)
Definition py_int (s : string) : py nat :=
  match NilZero.uint_of_string s with
  | Some u => ret (Nat.of_uint u)
  | None => raise (ValueError "invalid literal for int() with base 10")
  end.

(** [a // b] on non-negative integers. *)
Definition py_floordiv (a b : nat) : py nat :=
  match b with
  | O => raise ZeroDivisionError
  | S _ => ret (a / b)%nat
  end.

(** [xs[i]] for [i >= 0]. *)
Definition py_nth (xs : list float) (i : nat) : py float :=
  match nth_error xs i with
  | Some x => ret x
  | None => raise IndexError
  end.

(** [range(0, n, step)] for [step >= 1]. *)
Definition py_range (n step : nat) : list nat :=
  map (fun j => (j * step)%nat) (seq 0 ((n + step - 1) / step)).

(** The stride between the rows shown (lines 665-672); the bare [except]
    falls back on twenty rows. *)
Definition update_table_step (n : nat) (num_rows : filas) : nat :=
  let intento : py nat :=
    if (texto_filas num_rows =? "Todas")%string then ret 1%nat
    else
      k <- py_int (texto_filas num_rows) ;;
      q <- py_floordiv n k ;;
      ret (Nat.max 1 q) in
  match intento with
  | inr step => step
  | inl _ => Nat.max 1 (n / 20)
  end.

(** [update_table]: the rows inserted in the table (lines 659-678). *)
Definition update_table (t_values y_values : list float) (num_rows : filas)
  : py (list (string * string)) :=
  let n := List.length t_values in
  let step := update_table_step n num_rows in
  map_py (fun i =>
            t <- py_nth t_values i ;;
            y <- py_nth y_values i ;;
            ret (format_f 2 t, format_f 2 y))
         (py_range n step).

End Paneles.

(** * Vocabulary of the properties *)

(** The change from sample [i] to sample [i + 1] of [ys] is steady: its
    size relative to [max(|y|, 1e-10)] is below [0.01], or its size is below
    [1e-6]. *)
Definition steady_change (ys : list R) (i : nat) : Prop :=
  (S i < List.length ys)%nat /\
  let dy := Rabs (nth (S i) ys 0 - nth i ys 0) in
  (dy / Rmax (Rabs (nth (S i) ys 0)) 1e-10 < 0.01 \/ dy < 1e-6).

(** One entry of [is_steady], from two consecutive samples. *)
Definition steady_pair (y0 y1 : R) : bool :=
  let a := Rabs (y1 - y0) in
  let s := Rmax (Rabs y1) 1e-10 in
  (Rltb (if Rltb 0 s then a / s else 0) 0.01 || Rltb a 1e-6)%bool.

(** The state one integration step of [Mezclas] yields from [s] when the
    volume of [s] is positive (lines 252-268 with the guard of line 255
    taken). *)
Definition euler_next (self : Mezclas.model) (t dt : R)
    (s : Mezclas.euler_state) : Mezclas.euler_state :=
  let dt_step := Rmin dt (t - Mezclas.current_t s) in
  let dA_dt := Mezclas.r_in self * Mezclas.C_in self
               - Mezclas.r_out self
                 * (Mezclas.current_A s / Mezclas.current_V s) in
  let A1 := Rmax 0 (Mezclas.current_A s + dA_dt * dt_step) in
  let V1 := Rmax 0 (Mezclas.current_V s
                    + (Mezclas.r_in self - Mezclas.r_out self) * dt_step) in
  Mezclas.mkState (Mezclas.current_t s + dt_step)
                  (if Rltb (Rabs A1) 1e-10 then 0 else A1) V1.

(** Mass and volume of a loop state are non-negative. *)
Definition nonneg_state (s : Mezclas.euler_state) : Prop :=
  0 <= Mezclas.current_A s /\ 0 <= Mezclas.current_V s.

(** The tank [Mezclas(V0=125, C0=0, r_in=1, C_in=1, r_out=3)] loses two
    litres per minute and is empty at [t = 62.5].  A call at that time runs
    1000 steps of [dt = 0.0625]; [drain_inv j s] is what holds of the loop
    state [s] when [j] steps are left: the volume is [j / 8], and the mass
    stays below it by [j^2 / 8000] at least. *)
Definition drain_tank : Mezclas.model := Mezclas.mk 125 0 1 1 3 false.

Definition drain_inv (j : nat) (s : Mezclas.euler_state) : Prop :=
  Mezclas.current_t s = 125 / 2 - INR j / 16 /\
  Mezclas.current_V s = INR j / 8 /\
  0 <= Mezclas.current_A s /\
  (INR j) ^ 2 / 8000 <= Mezclas.current_V s - Mezclas.current_A s.

(** The times of a run rise strictly. *)
Definition strictly_increasing (ts : list R) : Prop :=
  forall i j, (i < j < List.length ts)%nat -> nth i ts 0 < nth j ts 0.

(** The number of rows a value of the table's row selector asks for;
    "Todas" asks for no particular number. *)
Definition filas_numero (f : Paneles.filas) : nat :=
  match f with
  | Paneles.Filas10 => 10
  | Paneles.Filas20 => 20
  | Paneles.Filas50 => 50
  | Paneles.Filas100 => 100
  | Paneles.Todas => 0
  end.

(** * Properties *)

(** ** Comparisons *)

Lemma Rltb_true (x y : R) : Rltb x y = true <-> x < y.
Proof. unfold Rltb; destruct (Rlt_dec x y); split; intros; (easy || lra). Qed.

Lemma Rltb_false (x y : R) : Rltb x y = false <-> y <= x.
Proof. unfold Rltb; destruct (Rlt_dec x y); split; intros; (easy || lra). Qed.

Lemma Rleb_true (x y : R) : Rleb x y = true <-> x <= y.
Proof. unfold Rleb; destruct (Rle_dec x y); split; intros; (easy || lra). Qed.

Lemma Rleb_false (x y : R) : Rleb x y = false <-> y < x.
Proof. unfold Rleb; destruct (Rle_dec x y); split; intros; (easy || lra). Qed.

Lemma Reqb_true (x y : R) : Reqb x y = true <-> x = y.
Proof. unfold Reqb; destruct (Req_dec_T x y); split; intros; easy. Qed.

Lemma Reqb_false (x y : R) : Reqb x y = false <-> x <> y.
Proof. unfold Reqb; destruct (Req_dec_T x y); split; intros; easy. Qed.

Lemma py_div_ok (x y : R) : y <> 0 -> py_div x y = inr (x / y).
Proof. intros Hy; unfold py_div; destruct (Req_dec_T y 0); easy. Qed.

(** ** Constructors *)

Lemma Newton_init_inv (T0 Ta k : R) (m : EnfriamientoNewton.model) :
  EnfriamientoNewton.init T0 Ta k = inr m ->
  0 < k /\ T0 <> Ta /\ m = EnfriamientoNewton.mk T0 Ta k.
Proof.
  unfold EnfriamientoNewton.init, raise, ret; intros H.
  destruct (Rleb k 0) eqn:Hk; [discriminate|].
  destruct (Reqb T0 Ta) eqn:HT; [discriminate|].
  apply Rleb_false in Hk; apply Reqb_false in HT.
  injection H as <-; auto.
Qed.

Lemma Mezclas_init_inv (V0 C0 r_in C_in r_out : R) (m : Mezclas.model) :
  Mezclas.init V0 C0 r_in C_in r_out = inr m ->
  0 < V0 /\ 0 <= C0 /\ 0 <= r_in /\ 0 <= C_in /\ 0 <= r_out /\
  m = Mezclas.mk V0 C0 r_in C_in r_out (Rltb (Rabs (r_in - r_out)) 1e-10).
Proof.
  unfold Mezclas.init, raise, ret; intros H.
  destruct (Rleb V0 0) eqn:HV; [discriminate|].
  destruct (Rltb C0 0) eqn:HC; [discriminate|].
  destruct (Rltb r_in 0) eqn:Hi; [discriminate|].
  destruct (Rltb r_out 0) eqn:Ho; [discriminate|].
  destruct (Rltb C_in 0) eqn:Hc; [discriminate|].
  simpl in H.
  apply Rleb_false in HV; apply Rltb_false in HC, Hi, Ho, Hc.
  injection H as <-; repeat split; auto.
Qed.

Lemma Mezclas_init_ok (V0 C0 r_in C_in r_out : R) :
  0 < V0 -> 0 <= C0 -> 0 <= r_in -> 0 <= C_in -> 0 <= r_out ->
  Mezclas.init V0 C0 r_in C_in r_out =
  inr (Mezclas.mk V0 C0 r_in C_in r_out (Rltb (Rabs (r_in - r_out)) 1e-10)).
Proof.
  intros; unfold Mezclas.init.
  replace (Rleb V0 0) with false by (symmetry; apply Rleb_false; lra).
  replace (Rltb C0 0) with false by (symmetry; apply Rltb_false; lra).
  replace (Rltb r_in 0) with false by (symmetry; apply Rltb_false; lra).
  replace (Rltb r_out 0) with false by (symmetry; apply Rltb_false; lra).
  replace (Rltb C_in 0) with false by (symmetry; apply Rltb_false; lra).
  reflexivity.
Qed.

(** ** Closed-form models *)

(** C6. A Newton-cooling model built by its constructor (so with [k > 0]
    and [T0 <> Ta]) holds [T0] at every negative time and follows
    [Ta + (T0 - Ta) * e^(-k t)] from time zero on. *)
Theorem newton_calcular_spec (T0 Ta k : R) (m : EnfriamientoNewton.model) :
  EnfriamientoNewton.init T0 Ta k = inr m ->
  (0 < k /\ T0 <> Ta) /\
  (forall t, t < 0 -> EnfriamientoNewton.calcular m t = T0) /\
  (forall t, 0 <= t ->
     EnfriamientoNewton.calcular m t = Ta + (T0 - Ta) * exp (- k * t)).
Proof.
  intros H; apply Newton_init_inv in H as (Hk & HT & ->).
  split; [auto|]; split; intros t Ht; unfold EnfriamientoNewton.calcular; simpl.
  - replace (Rltb t 0) with true by (symmetry; apply Rltb_true; lra).
    reflexivity.
  - replace (Rltb t 0) with false by (symmetry; apply Rltb_false; lra).
    reflexivity.
Qed.

Lemma newton_calcular_spec_witness :
  EnfriamientoNewton.init 90 25 0.1 = inr (EnfriamientoNewton.mk 90 25 0.1) /\
  EnfriamientoNewton.calcular (EnfriamientoNewton.mk 90 25 0.1) (-5) = 90 /\
  EnfriamientoNewton.calcular (EnfriamientoNewton.mk 90 25 0.1) 0 = 90.
Proof.
  assert (Hinit : EnfriamientoNewton.init 90 25 0.1
                  = inr (EnfriamientoNewton.mk 90 25 0.1)).
  { unfold EnfriamientoNewton.init.
    replace (Rleb 0.1 0) with false by (symmetry; apply Rleb_false; lra).
    replace (Reqb 90 25) with false by (symmetry; apply Reqb_false; lra).
    reflexivity. }
  destruct (newton_calcular_spec 90 25 0.1 _ Hinit) as (_ & Hneg & Hpos).
  split; [exact Hinit|]; split.
  - apply Hneg; lra.
  - rewrite Hpos by lra.
    rewrite Rmult_0_r, exp_0. lra.
Defined.

(** C7. An RL circuit never raises: its current is [0] when [R = 0] or
    [L = 0], and [(E / R) * (1 - e^(-R t / L))] otherwise. *)
Theorem circuito_calcular_spec (m : CircuitoRL.model) (t : R) :
  (CircuitoRL.R m = 0 \/ CircuitoRL.L m = 0 ->
     CircuitoRL.calcular m t = inr 0) /\
  (CircuitoRL.R m <> 0 /\ CircuitoRL.L m <> 0 ->
     CircuitoRL.calcular m t =
     inr (CircuitoRL.E m / CircuitoRL.R m
          * (1 - exp (- CircuitoRL.R m * t / CircuitoRL.L m)))).
Proof.
  unfold CircuitoRL.calcular; split.
  - intros [H | H]; rewrite H.
    + replace (Reqb 0 0) with true by (symmetry; apply Reqb_true; lra).
      reflexivity.
    + replace (Reqb 0 0) with true by (symmetry; apply Reqb_true; lra).
      rewrite orb_true_r; reflexivity.
  - intros [HR HL].
    replace (Reqb (CircuitoRL.R m) 0) with false
      by (symmetry; apply Reqb_false; exact HR).
    replace (Reqb (CircuitoRL.L m) 0) with false
      by (symmetry; apply Reqb_false; exact HL).
    simpl. rewrite !py_div_ok by assumption. reflexivity.
Qed.

(** C3. A tank built by its constructor with [|r_in - r_out| < 1e-10]
    returns the initial mass [C0 * V0] when [t <= 0] or [r_out = 0], and
    otherwise [max(0, A_ss + (A0 - A_ss) * e^(-(r_out / V0) t))] with
    [A_ss = r_in * C_in * V0 / r_out] and [A0 = C0 * V0]. *)
Theorem mezclas_volumen_constante_spec
    (V0 C0 r_in C_in r_out : R) (m : Mezclas.model) :
  Mezclas.init V0 C0 r_in C_in r_out = inr m ->
  Rabs (r_in - r_out) < 1e-10 ->
  Mezclas.volumen_constante m = true /\
  (forall t, t <= 0 \/ r_out = 0 -> Mezclas.calcular m t = inr (C0 * V0)) /\
  (forall t, 0 < t /\ r_out <> 0 ->
     let A_ss := r_in * C_in * V0 / r_out in
     let A0 := C0 * V0 in
     Mezclas.calcular m t
     = inr (Rmax 0 (A_ss + (A0 - A_ss) * exp (- (r_out / V0) * t)))).
Proof.
  intros H Hreg; apply Mezclas_init_inv in H as (HV & _ & _ & _ & _ & ->).
  assert (Hvc : Rltb (Rabs (r_in - r_out)) 1e-10 = true)
    by (apply Rltb_true; exact Hreg).
  split; [exact Hvc|]; split.
  - intros t Ht; unfold Mezclas.calcular; simpl.
    destruct (Rleb t 0) eqn:Et; [reflexivity|].
    apply Rleb_false in Et. rewrite Hvc.
    destruct Ht as [Ht | Ht]; [lra|].
    replace (Reqb r_out 0) with true by (symmetry; apply Reqb_true; exact Ht).
    reflexivity.
  - intros t [Ht Ho]; unfold Mezclas.calcular; simpl.
    replace (Rleb t 0) with false by (symmetry; apply Rleb_false; lra).
    rewrite Hvc.
    replace (Reqb r_out 0) with false by (symmetry; apply Reqb_false; exact Ho).
    simpl. rewrite !py_div_ok by lra. reflexivity.
Qed.

Lemma mezclas_volumen_constante_spec_witness :
  Mezclas.calcular (Mezclas.mk 100 0.5 2 0.1 2 true) 0 = inr (0.5 * 100).
Proof.
  assert (Hinit : Mezclas.init 100 0.5 2 0.1 2
                  = inr (Mezclas.mk 100 0.5 2 0.1 2 true)).
  { rewrite Mezclas_init_ok by lra.
    replace (Rltb (Rabs (2 - 2)) 1e-10) with true; [reflexivity|].
    symmetry; apply Rltb_true.
    replace (2 - 2) with 0 by lra. rewrite Rabs_R0. lra. }
  assert (Hreg : Rabs (2 - 2) < 1e-10).
  { replace (2 - 2) with 0 by lra. rewrite Rabs_R0. lra. }
  destruct (mezclas_volumen_constante_spec 100 0.5 2 0.1 2 _ Hinit Hreg)
    as (_ & H0 & _).
  apply H0. left; lra.
Defined.

(** C2, as the specification states it, fails for [P0 = -1], [k = 1]:
    the rate is positive and the value falls from [-1] at [t = 0] to [-e]
    at [t = 1]. *)
Lemma crecimiento_monotonia_counterexample :
  let m := CrecimientoExponencial.mk (-1) 1 in
  0 < 1 /\ CrecimientoExponencial.k m > 0 /\
  ~ (CrecimientoExponencial.calcular m 1 > CrecimientoExponencial.calcular m 0).
Proof.
  simpl; split; [lra|]; split; [lra|].
  unfold CrecimientoExponencial.calcular; simpl.
  rewrite Rmult_0_r, exp_0.
  assert (H : exp 0 < exp (1 * 1)) by (apply exp_increasing; lra).
  rewrite exp_0 in H. lra.
Qed.

(** C2, amended. For [t1 < t2] the sign of [P0] decides the direction: with
    [P0 > 0] the value does not fall when [k > 0] and does not rise when
    [k < 0]; with [P0 < 0] it is the other way round; with [k = 0] the value
    is constant.  The order is not strict: in double precision [np.exp]
    saturates, to [0] and [inf] and between times that lie close together,
    and two values then coincide. *)
Theorem crecimiento_monotonia (m : CrecimientoExponencial.model) (t1 t2 : R) :
  t1 < t2 ->
  let P0 := CrecimientoExponencial.P0 m in
  let k := CrecimientoExponencial.k m in
  let y1 := CrecimientoExponencial.calcular m t1 in
  let y2 := CrecimientoExponencial.calcular m t2 in
  (0 < P0 -> (k > 0 -> y1 <= y2) /\ (k < 0 -> y2 <= y1)) /\
  (P0 < 0 -> (k > 0 -> y2 <= y1) /\ (k < 0 -> y1 <= y2)) /\
  (k = 0 -> y2 = y1).
Proof.
  intros Ht P0 k y1 y2; subst y1 y2; unfold CrecimientoExponencial.calcular.
  fold P0; fold k.
  assert (Hup : k > 0 -> exp (k * t1) < exp (k * t2))
    by (intros; apply exp_increasing; nra).
  assert (Hdown : k < 0 -> exp (k * t2) < exp (k * t1))
    by (intros; apply exp_increasing; nra).
  split; [|split].
  - intros HP; split; intros Hk.
    + specialize (Hup Hk); nra.
    + specialize (Hdown Hk); nra.
  - intros HP; split; intros Hk.
    + specialize (Hup Hk); nra.
    + specialize (Hdown Hk); nra.
  - intros Hk. rewrite Hk, !Rmult_0_l. reflexivity.
Qed.

Lemma crecimiento_monotonia_witness :
  CrecimientoExponencial.calcular (CrecimientoExponencial.mk 2 1) 0
  <= CrecimientoExponencial.calcular (CrecimientoExponencial.mk 2 1) 1.
Proof.
  assert (Ht : 0 < 1) by lra.
  destruct (crecimiento_monotonia (CrecimientoExponencial.mk 2 1) 0 1 Ht)
    as (Hpos & _ & _).
  simpl in Hpos. apply Hpos; lra.
Defined.

(** ** The statistics engine *)

Lemma is_steady_cons (y0 y1 : R) (tl : list R) :
  Modelo.is_steady (y0 :: y1 :: tl)
  = steady_pair y0 y1 :: Modelo.is_steady (y1 :: tl).
Proof. reflexivity. Qed.

Lemma steady_pair_true (y0 y1 : R) :
  steady_pair y0 y1 = true <->
  (Rabs (y1 - y0) / Rmax (Rabs y1) 1e-10 < 0.01 \/ Rabs (y1 - y0) < 1e-6).
Proof.
  unfold steady_pair.
  assert (Hs : 0 < Rmax (Rabs y1) 1e-10).
  { apply Rlt_le_trans with 1e-10; [lra | apply Rmax_r]. }
  replace (Rltb 0 (Rmax (Rabs y1) 1e-10)) with true
    by (symmetry; apply Rltb_true; exact Hs).
  rewrite orb_true_iff, !Rltb_true. reflexivity.
Qed.

Lemma is_steady_nth (ys : list R) (i : nat) :
  nth i (Modelo.is_steady ys) false = true <-> steady_change ys i.
Proof.
  revert i; induction ys as [|y0 ys IH]; intros i.
  - unfold steady_change; simpl; destruct i; split; intros H;
      try discriminate; destruct H; lia.
  - destruct ys as [|y1 tl].
    + unfold steady_change; simpl; destruct i; split; intros H;
        try discriminate; destruct H; lia.
    + rewrite is_steady_cons. destruct i as [|i].
      * simpl nth at 1. rewrite steady_pair_true.
        unfold steady_change; simpl. split; [intros H; split; [lia | exact H]|].
        intros [_ H]; exact H.
      * simpl nth at 1. rewrite IH. unfold steady_change.
        change (nth (S (S i)) (y0 :: y1 :: tl) 0) with (nth (S i) (y1 :: tl) 0).
        change (nth (S i) (y0 :: y1 :: tl) 0) with (nth i (y1 :: tl) 0).
        simpl List.length. split; intros [Hl H]; (split; [lia | exact H]).
Qed.

Lemma np_where_from_nil (k : nat) (mask : list bool) :
  np_where_from k mask = [] -> forall j, nth j mask false = false.
Proof.
  revert k; induction mask as [|b mask IH]; intros k H j.
  - destruct j; reflexivity.
  - simpl in H. destruct b; [discriminate|].
    destruct j; [reflexivity | simpl; eapply IH; exact H].
Qed.

Lemma np_where_from_first (k i : nat) (mask : list bool) (rest : list nat) :
  np_where_from k mask = i :: rest ->
  (k <= i)%nat /\ nth (i - k) mask false = true /\
  forall j, (j < i - k)%nat -> nth j mask false = false.
Proof.
  revert k; induction mask as [|b mask IH]; intros k H; [discriminate|].
  simpl in H. destruct b.
  - injection H as <- _. rewrite Nat.sub_diag.
    split; [lia|]; split; [reflexivity|]; intros j Hj; lia.
  - apply IH in H as (Hk & Hi & Hj).
    replace (i - k)%nat with (S (i - S k)) by lia.
    split; [lia|]; split; [exact Hi|].
    intros [|j] Hlt; [reflexivity | simpl; apply Hj; lia].
Qed.

Lemma np_where_bound (k i : nat) (mask : list bool) (rest : list nat) :
  np_where_from k mask = i :: rest -> (i < k + List.length mask)%nat.
Proof.
  revert k; induction mask as [|b mask IH]; intros k H; [discriminate|].
  simpl in H. destruct b.
  - injection H as <- _. simpl; lia.
  - apply IH in H. simpl; lia.
Qed.

Lemma is_steady_length (ys : list R) :
  List.length (Modelo.is_steady ys) = pred (List.length ys).
Proof.
  induction ys as [|y0 [|y1 tl] IH]; try reflexivity.
  rewrite is_steady_cons. simpl List.length at 1. rewrite IH. reflexivity.
Qed.

(** What [Modelo.equilibrio] computes, for sequences of equal length. *)
Lemma equilibrio_spec (ts ys : list R) (te : R) :
  List.length ts = List.length ys ->
  (forall i, (3 <= List.length ys)%nat ->
     steady_change ys i -> (forall j, (j < i)%nat -> ~ steady_change ys j) ->
     Modelo.equilibrio ts ys te = nth (S i) ts 0) /\
  ((List.length ys < 3)%nat \/ (forall i, ~ steady_change ys i) ->
     Modelo.equilibrio ts ys te = te).
Proof.
  intros Hlen; unfold Modelo.equilibrio, np_where; split.
  - intros i H3 Hi Hmin.
    replace (2 <? List.length ys)%nat with true
      by (symmetry; apply Nat.ltb_lt; lia).
    destruct (np_where_from 0 (Modelo.is_steady ys)) as [|i0 rest] eqn:Hw.
    + apply is_steady_nth in Hi.
      rewrite (np_where_from_nil _ _ Hw) in Hi; discriminate.
    + pose proof (np_where_bound _ _ _ _ Hw) as Hb.
      apply np_where_from_first in Hw as (_ & Hi0 & Hmin0).
      rewrite Nat.sub_0_r in Hi0, Hmin0. rewrite is_steady_length in Hb.
      assert (i0 = i).
      { destruct (Nat.lt_trichotomy i0 i) as [Hlt | [Heq | Hgt]]; [|exact Heq|].
        - exfalso; apply (Hmin _ Hlt), is_steady_nth, Hi0.
        - apply is_steady_nth in Hi. rewrite (Hmin0 _ Hgt) in Hi; discriminate. }
      subst i0. replace (i + 1)%nat with (S i) by lia.
      replace (S i <? List.length ts)%nat with true
        by (symmetry; apply Nat.ltb_lt; lia).
      reflexivity.
  - intros [Hshort | Hnone].
    + replace (2 <? List.length ys)%nat with false
        by (symmetry; apply Nat.ltb_ge; lia).
      reflexivity.
    + destruct (2 <? List.length ys)%nat; [|reflexivity].
      destruct (np_where_from 0 (Modelo.is_steady ys)) as [|i0 rest] eqn:Hw;
        [reflexivity|].
      apply np_where_from_first in Hw as (_ & Hi0 & _).
      rewrite Nat.sub_0_r in Hi0. apply is_steady_nth in Hi0.
      exfalso; exact (Hnone _ Hi0).
Qed.

Lemma np_diff_length (xs : list R) :
  List.length (np_diff xs) = pred (List.length xs).
Proof.
  induction xs as [|x0 [|x1 tl] IH]; try reflexivity.
  change (np_diff (x0 :: x1 :: tl)) with ((x1 - x0) :: np_diff (x1 :: tl)).
  change (List.length ((x1 - x0) :: np_diff (x1 :: tl)))
    with (S (List.length (np_diff (x1 :: tl)))).
  rewrite IH. reflexivity.
Qed.

Lemma np_mask_ok (xs : list R) (mask : list bool) :
  List.length xs = List.length mask -> exists r, np_mask xs mask = inr r.
Proof.
  revert mask; induction xs as [|x xs IH]; intros [|b mask] Hlen;
    try discriminate.
  - exists []; reflexivity.
  - injection Hlen as Hlen. destruct (IH _ Hlen) as [r Hr].
    simpl. rewrite Hr. simpl. eexists; reflexivity.
Qed.

(** On sequences of equal length the rate of change is computed without an
    exception. *)
Lemma tasa_cambio_promedio_ok (ts ys : list R) :
  List.length ts = List.length ys ->
  exists v, Modelo.tasa_cambio_promedio ts ys = inr v.
Proof.
  intros Hlen; unfold Modelo.tasa_cambio_promedio.
  destruct ((1 <? List.length ys)%nat && (1 <? List.length ts)%nat)%bool;
    [|eexists; reflexivity].
  destruct (existsb _ _); [|eexists; reflexivity].
  destruct (np_mask_ok (np_diff ys) (map (fun d => Rltb 0 d) (np_diff ts)))
    as [num Hnum].
  { rewrite length_map, !np_diff_length, Hlen; reflexivity. }
  destruct (np_mask_ok (np_diff ts) (map (fun d => Rltb 0 d) (np_diff ts)))
    as [den Hden].
  { rewrite length_map; reflexivity. }
  rewrite Hnum; simpl. rewrite Hden; simpl. eexists; reflexivity.
Qed.

Lemma last_cons_poly {A : Type} (x d : A) (l : list A) :
  last (x :: l) d = last l x.
Proof.
  revert x d; induction l as [|y l IH]; intros x d; [reflexivity|].
  change (last (x :: y :: l) d) with (last (y :: l) d).
  rewrite (IH y d). symmetry; apply IH.
Qed.

Lemma get_estadisticas_ok (ts ys : list R) :
  List.length ts = List.length ys -> ys <> [] ->
  exists st, Modelo.get_estadisticas ts ys = inr (Some st) /\
             Modelo.tiempo_equilibrio st = Modelo.equilibrio ts ys (last ts 0).
Proof.
  intros Hlen Hne. destruct ys as [|y0 ys]; [congruence|].
  destruct ts as [|t0 ts]; [discriminate|].
  unfold Modelo.get_estadisticas.
  destruct (tasa_cambio_promedio_ok (t0 :: ts) (y0 :: ys) Hlen) as [v Hv].
  rewrite Hv; simpl bind. eexists; split; [reflexivity|].
  simpl Modelo.tiempo_equilibrio. f_equal.
  symmetry; apply last_cons_poly.
Qed.

Lemma get_estadisticas_empty (ts ys : list R) :
  ts = [] \/ ys = [] -> Modelo.get_estadisticas ts ys = inr None.
Proof.
  intros [-> | ->]; [destruct ys | destruct ts]; reflexivity.
Qed.

(** C1. On a trajectory (time and value sequences of one length, at least
    one sample) the statistics are computed, and their equilibrium time is
    - with three samples or more, the time [t_(i+1)] of the earliest steady
      change [i -> i + 1];
    - the last time value when no change is steady, or when there are fewer
      than three samples. *)
Theorem equilibrium_time_spec (ts ys : list R) :
  List.length ts = List.length ys -> ys <> [] ->
  exists st,
    Modelo.get_estadisticas ts ys = inr (Some st) /\
    (forall i, (3 <= List.length ys)%nat ->
       steady_change ys i -> (forall j, (j < i)%nat -> ~ steady_change ys j) ->
       Modelo.tiempo_equilibrio st = nth (S i) ts 0) /\
    ((List.length ys < 3)%nat \/ (forall i, ~ steady_change ys i) ->
       Modelo.tiempo_equilibrio st = last ts 0).
Proof.
  intros Hlen Hne.
  destruct (get_estadisticas_ok ts ys Hlen Hne) as (st & Hst & Hte).
  destruct (equilibrio_spec ts ys (last ts 0) Hlen) as (Hfirst & Hlast).
  exists st; split; [exact Hst|]; rewrite Hte; split; assumption.
Qed.

(** Decide the signs under [Rabs], [Rmax] and [Rmin], then conclude by
    linear arithmetic. *)
Ltac rabs :=
  unfold Rabs, Rmax, Rmin in *;
  repeat match goal with
         | |- context [Rcase_abs ?a] => destruct (Rcase_abs a)
         | |- context [Rle_dec ?a ?b] => destruct (Rle_dec a b)
         | H : context [Rcase_abs ?a] |- _ => destruct (Rcase_abs a)
         | H : context [Rle_dec ?a ?b] |- _ => destruct (Rle_dec a b)
         end;
  try lra.

Lemma equilibrium_time_spec_witness :
  exists st,
    Modelo.get_estadisticas [0; 1; 2; 3] [1; 2; 2; 2] = inr (Some st) /\
    Modelo.tiempo_equilibrio st = 2.
Proof.
  assert (Hne : [1; 2; 2; 2] <> @nil R) by discriminate.
  destruct (equilibrium_time_spec [0; 1; 2; 3] [1; 2; 2; 2] eq_refl Hne)
    as (st & Hst & Hfirst & _).
  exists st; split; [exact Hst|].
  apply (Hfirst 1%nat).
  - simpl; lia.
  - split; [simpl; lia|]. simpl. right. rabs.
  - intros j Hj (_ & Hs). assert (j = 0%nat) by lia; subst j.
    simpl in Hs. destruct Hs as [Hs | Hs].
    + assert (Hd : Rabs (2 - 1) / Rmax (Rabs 2) 1e-10 = 1 / 2).
      { replace (Rabs (2 - 1)) with 1 by rabs.
        replace (Rmax (Rabs 2) 1e-10) with 2 by rabs. reflexivity. }
      rewrite Hd in Hs. lra.
    + replace (Rabs (2 - 1)) with 1 in Hs by rabs. lra.
Defined.

(** ** The integration loop of [Mezclas] *)

(** With a positive volume a step raises nothing, and this is the state it
    yields. *)
Lemma euler_step_pos (m : Mezclas.model) (t dt : R) (s : Mezclas.euler_state) :
  0 < Mezclas.current_V s ->
  Mezclas.euler_step m t dt s = inr (euler_next m t dt s).
Proof.
  intros HV; unfold Mezclas.euler_step, euler_next.
  replace (Rltb 0 (Mezclas.current_V s)) with true
    by (symmetry; apply Rltb_true; exact HV).
  rewrite py_div_ok by lra. reflexivity.
Qed.

(** One turn of the loop: before time [t], with a positive volume and
    budget left, the loop takes a step and goes on from the new state. *)
Lemma euler_loop_turn (m : Mezclas.model) (t dt : R) (b : nat)
    (s : Mezclas.euler_state) :
  Mezclas.current_t s < t -> 0 < Mezclas.current_V s ->
  Mezclas.euler_loop m t dt (S b) s =
  (r <- Mezclas.euler_loop m t dt b (euler_next m t dt s) ;;
   ret (fst r, euler_next m t dt s :: snd r)).
Proof.
  intros Ht HV. simpl.
  replace (Rltb (Mezclas.current_t s) t) with true
    by (symmetry; apply Rltb_true; exact Ht).
  replace (Rleb (Mezclas.current_V s) 0) with false
    by (symmetry; apply Rleb_false; exact HV).
  rewrite euler_step_pos by exact HV. reflexivity.
Qed.

Lemma euler_loop_done (m : Mezclas.model) (t dt : R) (b : nat)
    (s : Mezclas.euler_state) :
  t <= Mezclas.current_t s ->
  Mezclas.euler_loop m t dt b s = inr (Mezclas.current_A s, []).
Proof.
  intros Ht. destruct b; simpl;
    replace (Rltb (Mezclas.current_t s) t) with false
      by (symmetry; apply Rltb_false; exact Ht);
    reflexivity.
Qed.

Lemma euler_loop_empty (m : Mezclas.model) (t dt : R) (b : nat)
    (s : Mezclas.euler_state) :
  Mezclas.current_t s < t -> Mezclas.current_V s <= 0 ->
  Mezclas.euler_loop m t dt (S b) s = inr (0, []).
Proof.
  intros Ht HV. simpl.
  replace (Rltb (Mezclas.current_t s) t) with true
    by (symmetry; apply Rltb_true; exact Ht).
  replace (Rleb (Mezclas.current_V s) 0) with true
    by (symmetry; apply Rleb_true; exact HV).
  reflexivity.
Qed.

Lemma euler_next_nonneg (m : Mezclas.model) (t dt : R) (s : Mezclas.euler_state) :
  nonneg_state (euler_next m t dt s).
Proof.
  unfold nonneg_state, euler_next; simpl. split.
  - destruct (Rltb _ 1e-10); [lra | apply Rmax_l].
  - apply Rmax_l.
Qed.

Lemma euler_next_time (m : Mezclas.model) (t dt : R) (s : Mezclas.euler_state) :
  Mezclas.current_t (euler_next m t dt s)
  = Mezclas.current_t s + Rmin dt (t - Mezclas.current_t s).
Proof. reflexivity. Qed.

(** The loop ends within its budget whenever the budget covers the time
    that is left; it returns a non-negative mass, takes no more steps than
    the budget, and every state it reaches has non-negative mass and
    volume. *)
Lemma euler_loop_total (m : Mezclas.model) (t dt : R) :
  0 < dt ->
  forall (b : nat) (s : Mezclas.euler_state),
    t - Mezclas.current_t s <= INR b * dt ->
    0 <= Mezclas.current_A s ->
    exists v trace,
      Mezclas.euler_loop m t dt b s = inr (v, trace) /\
      (List.length trace <= b)%nat /\ 0 <= v /\
      Forall nonneg_state trace.
Proof.
  intros Hdt; induction b as [|b IH]; intros s Hrem HA.
  - simpl in Hrem. rewrite euler_loop_done by lra.
    exists (Mezclas.current_A s), []; repeat split; auto.
  - destruct (Rlt_dec (Mezclas.current_t s) t) as [Ht | Ht].
    + destruct (Rle_dec (Mezclas.current_V s) 0) as [HV | HV].
      * rewrite euler_loop_empty by assumption.
        exists 0, []; repeat split; auto; simpl; try lia; lra.
      * rewrite euler_loop_turn by lra.
        destruct (IH (euler_next m t dt s)) as (v & trace & Hl & Hlen & Hv & Hall).
        { rewrite euler_next_time. rewrite S_INR in Hrem.
          assert (0 <= INR b * dt)
            by (apply Rmult_le_pos; [apply pos_INR | lra]).
          rabs. }
        { apply euler_next_nonneg. }
        rewrite Hl; simpl.
        exists v, (euler_next m t dt s :: trace); repeat split; auto.
        -- simpl; lia.
        -- constructor; [apply euler_next_nonneg | exact Hall].
    + rewrite euler_loop_done by lra.
      exists (Mezclas.current_A s), []; repeat split; auto; simpl; lia.
Qed.

(** While the tank does not drain ([r_out <= r_in]) no step is skipped:
    if [k] steps of [dt] do not cover the time that is left, the loop takes
    more than [k] steps. *)
Lemma euler_loop_filling (m : Mezclas.model) (t dt : R) :
  0 < dt -> Mezclas.r_out m <= Mezclas.r_in m ->
  forall (k b : nat) (s : Mezclas.euler_state) v trace,
    0 < Mezclas.current_V s ->
    INR k * dt < t - Mezclas.current_t s ->
    Mezclas.euler_loop m t dt b s = inr (v, trace) ->
    (k < List.length trace)%nat.
Proof.
  intros Hdt Hfill; induction k as [|k IH]; intros b s v trace HV Hrem Hl.
  - simpl in Hrem. destruct b as [|b].
    + simpl in Hl.
      replace (Rltb (Mezclas.current_t s) t) with true in Hl
        by (symmetry; apply Rltb_true; lra).
      discriminate.
    + rewrite euler_loop_turn in Hl by lra.
      destruct (Mezclas.euler_loop m t dt b _) as [e | [v' trace']];
        [discriminate|].
      injection Hl as _ <-. simpl; lia.
  - assert (Hk : 0 <= INR k * dt).
    { apply Rmult_le_pos; [apply pos_INR | lra]. }
    rewrite S_INR in Hrem.
    destruct b as [|b].
    + simpl in Hl.
      replace (Rltb (Mezclas.current_t s) t) with true in Hl
        by (symmetry; apply Rltb_true; lra).
      discriminate.
    + rewrite euler_loop_turn in Hl by lra.
      destruct (Mezclas.euler_loop m t dt b _) as [e | [v' trace']] eqn:Hrec;
        [discriminate|].
      injection Hl as _ <-.
      apply IH in Hrec.
      * simpl; lia.
      * unfold euler_next; simpl.
        assert (0 <= (Mezclas.r_in m - Mezclas.r_out m)
                     * Rmin dt (t - Mezclas.current_t s)).
        { apply Rmult_le_pos; [lra | rabs]. }
        eapply Rlt_le_trans; [|apply Rmax_r]. lra.
      * rewrite euler_next_time. rabs.
Qed.

(** ** The step size and the budget *)

Lemma INR_Zceil (x : R) : 0 <= x -> x <= INR (Z.to_nat (Zceil x)).
Proof.
  intros Hx. destruct (Zceil_bound x) as [_ Hup].
  assert (Hz : (0 <= Zceil x)%Z) by (apply le_IZR; lra).
  rewrite INR_IZR_INZ, Z2Nat.id by exact Hz. exact Hup.
Qed.

Lemma euler_dt_pos (t : R) : 0 < t -> 0 < Rmin 0.1 (t / 1000).
Proof. intros; rabs. Qed.

Lemma euler_dt_small (t : R) : t <= 100 -> Rmin 0.1 (t / 1000) = t / 1000.
Proof. intros; rabs. Qed.


Lemma euler_budget_small (t : R) :
  0 < t -> t <= 100 ->
  Mezclas.euler_budget t (Rmin 0.1 (t / 1000)) = 1000%nat.
Proof.
  intros H0 H100; unfold Mezclas.euler_budget.
  rewrite euler_dt_small by exact H100.
  replace (t / (t / 1000)) with 1000 by (field; lra).
  rewrite (Zceil_eq 1000) by lra. reflexivity.
Qed.


(** The budget of [Mezclas.euler] is sufficient: the numerical branch
    returns, with a non-negative mass, after no more steps than the budget,
    through states of non-negative mass and volume. *)
Lemma euler_ok (m : Mezclas.model) (t : R) :
  0 < t -> 0 <= Mezclas.C0 m * Mezclas.V0 m ->
  exists v trace,
    Mezclas.euler m t = inr (v, trace) /\
    (List.length trace
     <= Mezclas.euler_budget t (Rmin 0.1 (t / 1000)))%nat /\
    0 <= v /\ Forall nonneg_state trace.
Proof.
  intros Ht HA0; unfold Mezclas.euler.
  pose proof (euler_dt_pos t Ht) as Hdt.
  apply euler_loop_total; [exact Hdt | | exact HA0].
  simpl Mezclas.current_t. unfold Mezclas.euler_budget.
  assert (Hq : 0 <= t / Rmin 0.1 (t / 1000)).
  { apply Rmult_le_pos; [lra|]. apply Rlt_le, Rinv_0_lt_compat, Hdt. }
  pose proof (INR_Zceil _ Hq) as Hb.
  apply Rmult_le_compat_r with (r := Rmin 0.1 (t / 1000)) in Hb; [|lra].
  replace (t / Rmin 0.1 (t / 1000) * Rmin 0.1 (t / 1000)) with t in Hb
    by (field; lra).
  lra.
Qed.

(** In the variable-volume regime [calcular] is the numerical branch. *)
Lemma mezclas_calcular_variable (m : Mezclas.model) (t : R) :
  0 < t -> Mezclas.volumen_constante m = false ->
  Mezclas.r_in m <> Mezclas.r_out m ->
  Mezclas.calcular m t = (r <- Mezclas.euler m t ;; ret (fst r)).
Proof.
  intros Ht Hvc Hne; unfold Mezclas.calcular.
  replace (Rleb t 0) with false by (symmetry; apply Rleb_false; exact Ht).
  rewrite Hvc.
  destruct (Reqb (Mezclas.r_in m) 0) eqn:Hi; [|reflexivity].
  destruct (Reqb (Mezclas.r_out m) 0) eqn:Ho; [|reflexivity].
  apply Reqb_true in Hi, Ho. congruence.
Qed.

Lemma variable_regime_neq (r_in r_out : R) :
  Rltb (Rabs (r_in - r_out)) 1e-10 = false -> r_in <> r_out.
Proof.
  intros H Heq; apply Rltb_false in H. subst r_out.
  replace (r_in - r_in) with 0 in H by lra. rewrite Rabs_R0 in H. lra.
Qed.




(** ** A tank that empties exactly at the requested time *)

Lemma drain_arith (x A V c : R) :
  1 <= x -> V = (x + 1) / 8 -> A = c * V -> 0 <= A ->
  (x + 1) ^ 2 / 8000 <= V - A ->
  0 <= A + (1 * 1 - 3 * c) * (1 / 16) /\
  x ^ 2 / 8000 <= x / 8 - (A + (1 * 1 - 3 * c) * (1 / 16)).
Proof.
  intros Hx HV HA HA0 HD. subst V.
  assert (Hc0 : 0 <= c).
  { apply Rmult_le_reg_r with ((x + 1) / 8); [lra|]. lra. }
  assert (Hc1 : (x + 1) / 1000 <= 1 - c).
  { apply Rmult_le_reg_r with ((x + 1) / 8); [lra|]. subst A. nra. }
  subst A. split; nra.
Qed.

Lemma drain_step (j : nat) (s : Mezclas.euler_state) :
  drain_inv (S (S j)) s ->
  drain_inv (S j) (euler_next drain_tank (125 / 2) (1 / 16) s).
Proof.
  intros (Ht & HV & HA & HD).
  rewrite S_INR in Ht, HV, HD.
  set (x := INR (S j)) in *.
  assert (Hx : 1 <= x).
  { unfold x. rewrite S_INR. pose proof (pos_INR j). lra. }
  assert (Hstep : Rmin (1 / 16) (125 / 2 - Mezclas.current_t s) = 1 / 16).
  { rewrite Ht. rabs. }
  destruct (drain_arith x (Mezclas.current_A s) (Mezclas.current_V s)
              (Mezclas.current_A s / Mezclas.current_V s))
    as (Hpos & Hgap); [exact Hx | exact HV | field; lra | exact HA | exact HD |].
  unfold drain_inv. fold x. unfold euler_next, drain_tank.
  cbn [Mezclas.current_t Mezclas.current_A Mezclas.current_V
       Mezclas.r_in Mezclas.r_out Mezclas.C_in].
  rewrite Hstep.
  replace (Rmax 0 (Mezclas.current_V s + (1 - 3) * (1 / 16))) with (x / 8)
    by (rewrite HV; rabs).
  rewrite (Rmax_right 0 _ Hpos).
  split; [lra|]; split; [reflexivity|].
  destruct (Rltb _ 1e-10); split; lra.
Qed.

Lemma drain_last (s : Mezclas.euler_state) :
  drain_inv 1 s ->
  let s' := euler_next drain_tank (125 / 2) (1 / 16) s in
  Mezclas.current_t s' = 125 / 2 /\ Mezclas.current_V s' = 0 /\
  1 / 16000 <= Mezclas.current_A s'.
Proof.
  intros (Ht & HV & HA & HD). simpl INR in *.
  assert (Hstep : Rmin (1 / 16) (125 / 2 - Mezclas.current_t s) = 1 / 16).
  { rewrite Ht. rabs. }
  unfold euler_next, drain_tank.
  cbn [Mezclas.current_t Mezclas.current_A Mezclas.current_V
       Mezclas.r_in Mezclas.r_out Mezclas.C_in].
  rewrite Hstep, HV.
  replace (Rmax 0 (1 / 8 + (1 - 3) * (1 / 16))) with 0 by rabs.
  rewrite HV in HD.
  set (A1 := Mezclas.current_A s
             + (1 * 1 - 3 * (Mezclas.current_A s / (1 / 8))) * (1 / 16)).
  assert (HA1 : 1 / 16000 <= A1) by (unfold A1; lra).
  rewrite (Rmax_right 0 A1) by lra.
  replace (Rltb (Rabs A1) 1e-10) with false
    by (symmetry; apply Rltb_false; rabs).
  split; [lra|]; split; [reflexivity | exact HA1].
Qed.

Lemma drain_loop (j b : nat) (s : Mezclas.euler_state) :
  (S j <= b)%nat -> drain_inv (S j) s ->
  exists v trace,
    Mezclas.euler_loop drain_tank (125 / 2) (1 / 16) b s = inr (v, trace) /\
    1 / 16000 <= v /\ List.length trace = S j /\
    Mezclas.current_V (last trace s) = 0.
Proof.
  revert b s; induction j as [|j IH]; intros b s Hb Hinv.
  - destruct b as [|b]; [lia|].
    pose proof Hinv as (Ht & HV & _). simpl INR in Ht, HV.
    destruct (drain_last s Hinv) as (Ht' & HV' & HA').
    rewrite euler_loop_turn by lra.
    rewrite euler_loop_done by lra. simpl.
    eexists _, _; split; [reflexivity|]. simpl.
    split; [exact HA'|]; split; [reflexivity | exact HV'].
  - destruct b as [|b]; [lia|].
    pose proof Hinv as (Ht & HV & _). rewrite !S_INR in Ht, HV.
    pose proof (pos_INR j) as Hj.
    rewrite euler_loop_turn by lra.
    destruct (IH b (euler_next drain_tank (125 / 2) (1 / 16) s))
      as (v & trace & Hl & Hv & Hlen & Hlast);
      [lia | apply drain_step; exact Hinv |].
    rewrite Hl; simpl.
    eexists _, _; split; [reflexivity|].
    split; [exact Hv|]; split; [simpl; lia|].
    rewrite last_cons_poly. exact Hlast.
Qed.

(** C4, at its failing input. The tank
    [Mezclas(V0=125, C0=0, r_in=1, C_in=1, r_out=3)] is empty at
    [t = 62.5]: the volume [V0 + (r_in - r_out) t] is zero there, and so is
    the volume the loop tracks after its last step.  Yet [calcular(62.5)]
    returns a positive mass, not [0]. *)
Theorem mezclas_empty_tank_positive_mass :
  Mezclas.init 125 0 1 1 3 = inr drain_tank /\
  Mezclas.V0 drain_tank
  + (Mezclas.r_in drain_tank - Mezclas.r_out drain_tank) * (125 / 2) = 0 /\
  exists v trace,
    Mezclas.euler drain_tank (125 / 2) = inr (v, trace) /\
    Mezclas.calcular drain_tank (125 / 2) = inr v /\
    Mezclas.current_V (last trace (Mezclas.mkState 0 0 125)) = 0 /\
    1 / 16000 <= v.
Proof.
  assert (Hreg : Rltb (Rabs (1 - 3)) 1e-10 = false)
    by (apply Rltb_false; rabs).
  split.
  { rewrite Mezclas_init_ok by lra. rewrite Hreg. reflexivity. }
  split; [simpl; lra|].
  assert (Hdt : Rmin 0.1 (125 / 2 / 1000) = 1 / 16) by rabs.
  assert (Hbud : Mezclas.euler_budget (125 / 2) (Rmin 0.1 (125 / 2 / 1000))
                 = 1000%nat) by (apply euler_budget_small; lra).
  assert (H1000 : INR 1000 = 1000).
  { rewrite INR_IZR_INZ. reflexivity. }
  destruct (drain_loop 999 1000 (Mezclas.mkState 0 0 125))
    as (v & trace & Hl & Hv & _ & Hlast); [lia | |].
  { unfold drain_inv; simpl Mezclas.current_t; simpl Mezclas.current_V;
      simpl Mezclas.current_A.
    rewrite H1000. repeat split; lra. }
  exists v, trace.
  assert (He : Mezclas.euler drain_tank (125 / 2) = inr (v, trace)).
  { unfold Mezclas.euler. rewrite Hbud, Hdt.
    simpl Mezclas.C0; simpl Mezclas.V0.
    replace (0 * 125) with 0 by lra. exact Hl. }
  split; [exact He|]; split; [|split; assumption].
  rewrite mezclas_calcular_variable; [rewrite He; reflexivity | lra
    | reflexivity | simpl; lra].
Qed.

(** ** No model raises *)

Lemma map_py_ok {A B : Type} (f : A -> py B) (xs : list A) :
  (forall x, In x xs -> exists y, f x = inr y) ->
  exists ys, map_py f xs = inr ys /\ List.length ys = List.length xs.
Proof.
  induction xs as [|x xs IH]; intros Hf.
  - exists []; split; reflexivity.
  - destruct (Hf x (or_introl eq_refl)) as [y Hy].
    destruct IH as (ys & Hys & Hlen).
    { intros x' Hx'; apply Hf; right; exact Hx'. }
    exists (y :: ys); split; [|simpl; lia].
    simpl. rewrite Hy; simpl. rewrite Hys; reflexivity.
Qed.

Lemma circuito_calcular_ok (m : CircuitoRL.model) (t : R) :
  exists v, CircuitoRL.calcular m t = inr v.
Proof.
  unfold CircuitoRL.calcular.
  destruct (Reqb (CircuitoRL.R m) 0) eqn:HR; [eexists; reflexivity|].
  destruct (Reqb (CircuitoRL.L m) 0) eqn:HL; [eexists; reflexivity|].
  apply Reqb_false in HR, HL. simpl.
  rewrite !py_div_ok by assumption. eexists; reflexivity.
Qed.

Lemma mezclas_calcular_ok (V0 C0 r_in C_in r_out : R) (m : Mezclas.model)
    (t : R) :
  Mezclas.init V0 C0 r_in C_in r_out = inr m ->
  exists v, Mezclas.calcular m t = inr v.
Proof.
  intros Hinit.
  apply Mezclas_init_inv in Hinit as (HV & HC & Hi & Hc & Ho & ->).
  set (m := Mezclas.mk V0 C0 r_in C_in r_out _).
  destruct (Rle_dec t 0) as [Ht | Ht].
  { unfold Mezclas.calcular.
    replace (Rleb t 0) with true by (symmetry; apply Rleb_true; exact Ht).
    eexists; reflexivity. }
  destruct (Mezclas.volumen_constante m) eqn:Hvc.
  - unfold Mezclas.calcular.
    replace (Rleb t 0) with false by (symmetry; apply Rleb_false; lra).
    rewrite Hvc. simpl Mezclas.r_out.
    destruct (Reqb r_out 0) eqn:Hro; [eexists; reflexivity|].
    apply Reqb_false in Hro. simpl.
    rewrite !py_div_ok by lra. eexists; reflexivity.
  - destruct (euler_ok m t) as (v & trace & He & _); [lra | |].
    { simpl. apply Rmult_le_pos; lra. }
    exists v. rewrite mezclas_calcular_variable.
    + rewrite He; reflexivity.
    + lra.
    + exact Hvc.
    + exact (variable_regime_neq _ _ Hvc).
Qed.

(** Case analysis on the class of a model the application built from the
    parameters [p], given [H : crear_modelo p = inr m]; for a tank the
    constructor call is kept as [Hinit]. *)
Ltac por_clase p H :=
  destruct p; simpl in H;
  [ injection H as <-
  | destruct (EnfriamientoNewton.init _ _ _); [discriminate|];
    injection H as <-
  | injection H as <-
  | match type of H with
    | context [Mezclas.init ?a ?b ?c ?d ?e] =>
        let Hinit := fresh "Hinit" in
        destruct (Mezclas.init a b c d e) eqn:Hinit; [discriminate|];
        injection H as <-
    end ].

(** Every model the application builds evaluates at every time. *)
Lemma calcular_ok (p : SimuladorApp.params) (m : modelo) (t : R) :
  SimuladorApp.crear_modelo p = inr m -> exists v, calcular m t = inr v.
Proof.
  intros H; por_clase p H; simpl.
  - eexists; reflexivity.
  - eexists; reflexivity.
  - apply circuito_calcular_ok.
  - eapply mezclas_calcular_ok; eassumption.
Qed.

(** ** Interpretation *)

Lemma newton_interpretacion_ok (m : EnfriamientoNewton.model) (ts ys : list R) :
  List.length ts = List.length ys ->
  exists s, EnfriamientoNewton.get_interpretacion m ts ys = inr s.
Proof.
  intros Hlen; unfold EnfriamientoNewton.get_interpretacion.
  destruct ys as [|y ys].
  - rewrite get_estadisticas_empty by (right; reflexivity).
    eexists; reflexivity.
  - destruct (get_estadisticas_ok ts (y :: ys) Hlen) as (st & Hst & _);
      [discriminate|].
    rewrite Hst. eexists; reflexivity.
Qed.

Lemma circuito_interpretacion_ok (m : CircuitoRL.model) (ts ys : list R) :
  exists s, CircuitoRL.get_interpretacion m ts ys = inr s.
Proof.
  unfold CircuitoRL.get_interpretacion.
  destruct (Rltb 0 (CircuitoRL.L m)); [|eexists; reflexivity].
  destruct (Reqb (CircuitoRL.R m) 0) eqn:HR; cbn [negb].
  - eexists; reflexivity.
  - apply Reqb_false in HR. rewrite !py_div_ok by exact HR.
    eexists; reflexivity.
Qed.

Lemma mezclas_interpretacion_ok (V0 C0 r_in C_in r_out : R)
    (m : Mezclas.model) (ts ys : list R) :
  Mezclas.init V0 C0 r_in C_in r_out = inr m ->
  List.length ts = List.length ys ->
  exists s, Mezclas.get_interpretacion m ts ys = inr s.
Proof.
  intros Hinit Hlen.
  apply Mezclas_init_inv in Hinit as (HV & HC & Hi & Hc & Ho & ->).
  unfold Mezclas.get_interpretacion.
  destruct ys as [|y ys]; [eexists; reflexivity|].
  destruct ts as [|t0 ts]; [discriminate|].
  cbn [py_last bind ret Mezclas.V0 Mezclas.r_in Mezclas.r_out Mezclas.C_in
       Mezclas.C0 Mezclas.volumen_constante].
  set (final_vol := V0 + (r_in - r_out) * last ts t0).
  assert (Hconc : exists c,
             (if Rltb 0 final_vol then py_div (last ys y) final_vol else ret 0)
             = inr c).
  { destruct (Rltb 0 final_vol) eqn:Hfv; [|eexists; reflexivity].
    apply Rltb_true in Hfv. rewrite py_div_ok by lra. eexists; reflexivity. }
  destruct Hconc as [c Hc']. rewrite Hc'. cbn [bind].
  destruct (Rltb (Rabs (r_in - r_out)) 1e-10); [|eexists; reflexivity].
  destruct (Rltb 0 r_out) eqn:Hro; [|eexists; reflexivity].
  apply Rltb_true in Hro.
  rewrite (py_div_ok V0 r_out) by lra. cbn [bind].
  rewrite (py_div_ok (r_in * C_in * V0) r_out) by lra. cbn [bind].
  rewrite (py_div_ok _ V0) by lra. cbn [bind].
  eexists; reflexivity.
Qed.

(** C10. For every model the application builds and every pair of time and
    value sequences of one length, the empty ones included, the
    interpretation is a string: no exception is raised. *)
Theorem interpretacion_total (p : SimuladorApp.params) (m : modelo)
    (t_values y_values : list R) :
  SimuladorApp.crear_modelo p = inr m ->
  List.length t_values = List.length y_values ->
  exists s, get_interpretacion m t_values y_values = inr s.
Proof.
  intros H Hlen; por_clase p H; simpl.
  - eexists; reflexivity.
  - apply newton_interpretacion_ok; exact Hlen.
  - apply circuito_interpretacion_ok.
  - eapply mezclas_interpretacion_ok; eassumption.
Qed.

Lemma interpretacion_total_witness :
  exists s,
    get_interpretacion (Mezcla (Mezclas.mk 100 0.5 2 0.1 2 true)) [] []
    = inr s.
Proof.
  assert (Hreg : Rltb (Rabs (2 - 2)) 1e-10 = true).
  { apply Rltb_true. replace (2 - 2) with 0 by lra. rewrite Rabs_R0. lra. }
  assert (Hcrear : SimuladorApp.crear_modelo
                     (SimuladorApp.mezclas 100 0.5 2 0.1 2 60)
                   = inr (Mezcla (Mezclas.mk 100 0.5 2 0.1 2 true))).
  { simpl. rewrite Mezclas_init_ok by lra. rewrite Hreg. reflexivity. }
  exact (interpretacion_total _ _ [] [] Hcrear eq_refl).
Defined.

(** ** Simulation runs *)

Lemma np_arange_ok (start stop step : R) :
  step <> 0 ->
  np_arange start stop step
  = inr (map (fun i => start + INR i * step)
             (seq 0 (Z.to_nat (Zceil ((stop - start) / step))))).
Proof.
  intros Hs; unfold np_arange. destruct (Req_dec_T step 0); easy.
Qed.

(** The stepping run of a model the application builds raises nothing as
    long as the step is not zero, whatever the horizon: it samples the
    model on the times of [np.arange(0, t_max + dt, dt)]. *)
Lemma simular_ok (p : SimuladorApp.params) (m : modelo) (t_max dt : R) :
  SimuladorApp.crear_modelo p = inr m -> dt <> 0 ->
  exists ys,
    simular m t_max dt
    = inr (map (fun i => 0 + INR i * dt)
               (seq 0 (Z.to_nat (Zceil ((t_max + dt - 0) / dt)))), ys) /\
    List.length ys = Z.to_nat (Zceil ((t_max + dt - 0) / dt)).
Proof.
  intros Hm Hdt; unfold simular, Modelo.simular.
  rewrite np_arange_ok by exact Hdt. cbn [bind].
  destruct (map_py_ok (calcular m)
              (map (fun i => 0 + INR i * dt)
                   (seq 0 (Z.to_nat (Zceil ((t_max + dt - 0) / dt))))))
    as (ys & Hys & Hlen).
  { intros t _. eapply calcular_ok; exact Hm. }
  rewrite Hys; cbn [bind]. exists ys; split; [reflexivity|].
  rewrite Hlen, length_map, length_seq. reflexivity.
Qed.

(** The grid run of the application raises nothing once the model is
    built, whatever the horizon: it samples the model on
    [np.linspace(0, t_max, 1000)]. *)
Lemma app_simular_ok (p : SimuladorApp.params) (m : modelo) :
  SimuladorApp.crear_modelo p = inr m ->
  exists sim,
    SimuladorApp.simular p = inr sim /\
    SimuladorApp.t_values sim = np_linspace 0 (SimuladorApp.t_max p) 1000 /\
    List.length (SimuladorApp.y_values sim) = 1000%nat.
Proof.
  intros Hm; unfold SimuladorApp.simular. rewrite Hm; cbn [bind].
  set (ts := np_linspace 0 (SimuladorApp.t_max p) 1000).
  assert (Hts : List.length ts = 1000%nat).
  { unfold ts, np_linspace. rewrite length_map, length_seq. reflexivity. }
  destruct (map_py_ok (calcular m) ts) as (ys & Hys & Hlen).
  { intros t _. eapply calcular_ok; exact Hm. }
  rewrite Hys; cbn [bind].
  assert (Hne : ys <> []).
  { intros ->. simpl in Hlen. lia. }
  destruct (get_estadisticas_ok ts ys) as (st & Hst & _);
    [congruence | exact Hne |].
  unfold get_estadisticas. rewrite Hst; cbn [bind].
  assert (Htxt : exists txt, get_interpretacion m ts ys = inr txt).
  { assert (Hl : List.length ts = List.length ys) by congruence.
    clearbody ts. clear - Hm Hl. por_clase p Hm; simpl.
    - eexists; reflexivity.
    - apply newton_interpretacion_ok; exact Hl.
    - apply circuito_interpretacion_ok.
    - eapply mezclas_interpretacion_ok; eassumption. }
  destruct Htxt as [txt Htxt].
  rewrite Htxt; cbn [bind].
  eexists; split; [reflexivity|]. split; [reflexivity|].
  simpl. congruence.
Qed.

Lemma crear_crecimiento (P0 k t_max : R) :
  SimuladorApp.crear_modelo (SimuladorApp.crecimiento P0 k t_max)
  = inr (Crecimiento (CrecimientoExponencial.mk P0 k)).
Proof. reflexivity. Qed.

(** C8, as the specification states it, fails at [t_max = 0] for the
    growth model with [P0 = 1], [k = 1]: the stepping run with the default
    step [0.1] returns one sample, and the grid run returns its 1000
    samples; neither raises. *)
Lemma simular_horizon_counterexample :
  (exists ts ys,
     simular (Crecimiento (CrecimientoExponencial.mk 1 1)) 0 0.1
     = inr (ts, ys) /\ List.length ts = 1%nat) /\
  (exists sim,
     SimuladorApp.simular (SimuladorApp.crecimiento 1 1 0) = inr sim /\
     List.length (SimuladorApp.t_values sim) = 1000%nat).
Proof.
  split.
  - destruct (simular_ok _ _ 0 0.1 (crear_crecimiento 1 1 0)) as (ys & Hs & _);
      [lra|].
    eexists _, ys; split; [exact Hs|].
    rewrite length_map, length_seq.
    replace ((0 + 0.1 - 0) / 0.1) with 1 by lra.
    rewrite (Zceil_eq 1) by lra. reflexivity.
  - destruct (app_simular_ok _ _ (crear_crecimiento 1 1 0))
      as (sim & Hs & Hts & _).
    exists sim; split; [exact Hs|].
    rewrite Hts. unfold np_linspace. rewrite length_map, length_seq.
    reflexivity.
Qed.

Lemma arange_count_one (t_max dt : R) :
  0 < dt -> - dt < t_max -> t_max <= 0 ->
  Z.to_nat (Zceil ((t_max + dt - 0) / dt)) = 1%nat.
Proof.
  intros Hdt Hlo Hhi.
  rewrite (Zceil_eq 1); [reflexivity|].
  replace ((t_max + dt - 0) / dt) with (t_max / dt + 1) by (field; lra).
  assert (H1 : -1 < t_max / dt).
  { apply Rmult_lt_reg_r with dt; [exact Hdt|].
    replace (t_max / dt * dt) with t_max by (field; lra). lra. }
  assert (H2 : t_max / dt <= 0).
  { apply Rmult_le_reg_r with dt; [exact Hdt|].
    replace (t_max / dt * dt) with t_max by (field; lra). lra. }
  lra.
Qed.

Lemma arange_count_zero (t_max dt : R) :
  0 < dt -> t_max <= - dt ->
  Z.to_nat (Zceil ((t_max + dt - 0) / dt)) = 0%nat.
Proof.
  intros Hdt Hhi.
  assert (Hx : (t_max + dt - 0) / dt <= 0).
  { apply Rmult_le_reg_r with dt; [exact Hdt|].
    replace ((t_max + dt - 0) / dt * dt) with (t_max + dt) by (field; lra).
    lra. }
  assert (Hz : (Zceil ((t_max + dt - 0) / dt) <= 0)%Z).
  { apply Zceil_le in Hx. rewrite (Zceil_eq 0 0) in Hx by lra. exact Hx. }
  lia.
Qed.

(** C8, amended. For a model the application builds and a horizon
    [t_max <= 0], a run raises nothing.  The stepping run with a step
    [dt > 0] returns the single sample at [t = 0] when [-dt < t_max], and
    no sample when [t_max <= -dt]; the grid run returns 1000 samples, on
    [np.linspace(0, t_max, 1000)]. *)
Theorem simular_horizon_nonpositive (p : SimuladorApp.params) (m : modelo)
    (t_max dt : R) :
  SimuladorApp.crear_modelo p = inr m ->
  t_max <= 0 -> 0 < dt ->
  (exists ts ys,
     simular m t_max dt = inr (ts, ys) /\
     List.length ys = List.length ts /\
     (- dt < t_max -> ts = [0]) /\
     (t_max <= - dt -> ts = [])) /\
  (SimuladorApp.t_max p <= 0 ->
   exists sim,
     SimuladorApp.simular p = inr sim /\
     SimuladorApp.t_values sim = np_linspace 0 (SimuladorApp.t_max p) 1000 /\
     List.length (SimuladorApp.y_values sim) = 1000%nat).
Proof.
  intros Hm Ht Hdt; split.
  - destruct (simular_ok p m t_max dt Hm) as (ys & Hs & Hlen); [lra|].
    eexists _, ys; split; [exact Hs|]; split; [|split].
    + rewrite Hlen, length_map, length_seq. reflexivity.
    + intros Hlo. rewrite arange_count_one by assumption.
      simpl. f_equal. lra.
    + intros Hhi. rewrite arange_count_zero by assumption. reflexivity.
  - intros _. exact (app_simular_ok p m Hm).
Qed.

Lemma simular_horizon_nonpositive_witness :
  exists ts ys,
    simular (Crecimiento (CrecimientoExponencial.mk 1 1)) (-1) 0.1
    = inr (ts, ys) /\ ts = [].
Proof.
  assert (Ht : -1 <= 0) by lra.
  assert (Hdt : 0 < 0.1) by lra.
  destruct (simular_horizon_nonpositive _ _ (-1) 0.1
              (crear_crecimiento 1 1 (-1)) Ht Hdt)
    as ((ts & ys & Hs & _ & _ & Hnone) & _).
  exists ts, ys; split; [exact Hs | apply Hnone; lra].
Defined.

(** C9, at its failing input. The stepping run of the growth model with
    [P0 = 1], [k = 1] for [t_max = 0.25] and the default step [0.1] samples
    the times [0, 0.1, 0.2, 0.3]: the last one lies beyond [t_max]. *)
Theorem simular_overshoot :
  exists ts ys,
    simular (Crecimiento (CrecimientoExponencial.mk 1 1)) 0.25 0.1
    = inr (ts, ys) /\
    ts = [0; 0.1; 0.2; 0.3] /\ 0.25 < last ts 0.
Proof.
  destruct (simular_ok _ _ 0.25 0.1 (crear_crecimiento 1 1 0.25))
    as (ys & Hs & _); [lra|].
  eexists _, ys; split; [exact Hs|].
  replace ((0.25 + 0.1 - 0) / 0.1) with 3.5 by lra.
  rewrite (Zceil_eq 4) by lra.
  assert (Hts : map (fun i => 0 + INR i * 0.1) (seq 0 (Z.to_nat 4))
                = [0; 0.1; 0.2; 0.3]).
  { simpl. repeat (f_equal; try lra). }
  rewrite Hts. split; [reflexivity | simpl; lra].
Qed.

(** ** What the two runs do guarantee for a positive horizon *)

Lemma grid_nth (f : nat -> R) (n i : nat) (d : R) :
  (i < n)%nat -> nth i (map f (seq 0 n)) d = f i.
Proof.
  intros Hi.
  rewrite (nth_indep _ d (f 0%nat)) by (rewrite length_map, length_seq; lia).
  rewrite map_nth, seq_nth by lia. reflexivity.
Qed.

Lemma grid_increasing (a step : R) (n : nat) :
  0 < step ->
  strictly_increasing (map (fun i => a + INR i * step) (seq 0 n)).
Proof.
  intros Hs i j [Hij Hj]. rewrite length_map, length_seq in Hj.
  rewrite !grid_nth by lia.
  apply lt_INR in Hij. nra.
Qed.

Lemma grid_last (f : nat -> R) (n : nat) (d : R) :
  last (map f (seq 0 (S n))) d = f n.
Proof.
  rewrite seq_S, map_app.
  change (map f [(0 + n)%nat]) with [f n]. apply last_last.
Qed.

(** X1. The grid run, for a positive horizon: the 1000 times rise strictly from
    [0] to [t_max] and stay within [[0, t_max]]. *)
Theorem app_simular_grid (p : SimuladorApp.params) (m : modelo) :
  SimuladorApp.crear_modelo p = inr m ->
  0 < SimuladorApp.t_max p ->
  exists sim,
    SimuladorApp.simular p = inr sim /\
    List.length (SimuladorApp.t_values sim) = 1000%nat /\
    strictly_increasing (SimuladorApp.t_values sim) /\
    (forall t, In t (SimuladorApp.t_values sim) ->
       0 <= t <= SimuladorApp.t_max p) /\
    last (SimuladorApp.t_values sim) 0 = SimuladorApp.t_max p.
Proof.
  intros Hm Ht.
  destruct (app_simular_ok p m Hm) as (sim & Hs & Hts & _).
  exists sim; split; [exact Hs|]. rewrite Hts; unfold np_linspace.
  assert (H999 : INR (1000 - 1) = 999).
  { rewrite INR_IZR_INZ. reflexivity. }
  rewrite H999. set (tm := SimuladorApp.t_max p) in *.
  split; [rewrite length_map, length_seq; reflexivity|].
  split; [apply grid_increasing; lra|]. split.
  - intros t Hin. apply in_map_iff in Hin as (i & <- & Hi).
    apply in_seq in Hi. assert (Hi' : (i <= 1000 - 1)%nat) by lia.
    apply le_INR in Hi'. rewrite H999 in Hi'.
    pose proof (pos_INR i). split; nra.
  - change 1000%nat with (S (1000 - 1)). rewrite grid_last, H999. lra.
Qed.

Lemma app_simular_grid_witness :
  exists sim,
    SimuladorApp.simular (SimuladorApp.crecimiento 1 1 10) = inr sim /\
    last (SimuladorApp.t_values sim) 0 = 10.
Proof.
  assert (Ht : 0 < SimuladorApp.t_max (SimuladorApp.crecimiento 1 1 10))
    by (simpl; lra).
  destruct (app_simular_grid _ _ (crear_crecimiento 1 1 10) Ht)
    as (sim & Hs & _ & _ & _ & Hlast).
  exists sim; split; [exact Hs | exact Hlast].
Defined.

(** X2. The stepping run, for a positive horizon and a positive step,
    returns as many values as times; the times start at [0], rise strictly,
    stay below [t_max + 2 dt], and the last one lies less than a step
    before [t_max].  The bounds leave room for the sample that
    [np.arange(0, t_max + dt, dt)] adds when [(t_max + dt) / dt] is rounded
    up in double precision. *)
Theorem simular_paso_grid (p : SimuladorApp.params) (m : modelo)
    (t_max dt : R) :
  SimuladorApp.crear_modelo p = inr m ->
  0 < t_max -> 0 < dt ->
  exists ts ys,
    simular m t_max dt = inr (ts, ys) /\
    List.length ys = List.length ts /\
    hd_error ts = Some 0 /\
    strictly_increasing ts /\
    (forall t, In t ts -> 0 <= t < t_max + 2 * dt) /\
    t_max - dt < last ts 0.
Proof.
  intros Hm Ht Hdt.
  destruct (simular_ok p m t_max dt Hm) as (ys & Hs & Hlen); [lra|].
  eexists _, ys; split; [exact Hs|].
  set (x := (t_max + dt - 0) / dt) in *.
  assert (Hx : x * dt = t_max + dt) by (unfold x; field; lra).
  destruct (Zceil_bound x) as [Hlo Hhi].
  assert (Hx1 : 1 < x).
  { apply Rmult_lt_reg_r with dt; [exact Hdt | lra]. }
  assert (Hz : (2 <= Zceil x)%Z).
  { assert (1 < Zceil x)%Z by (apply lt_IZR; lra). lia. }
  assert (Hn : INR (Z.to_nat (Zceil x)) = IZR (Zceil x)).
  { rewrite INR_IZR_INZ, Z2Nat.id by lia. reflexivity. }
  split; [rewrite Hlen, length_map, length_seq; reflexivity|].
  split.
  { destruct (Z.to_nat (Zceil x)) as [|n] eqn:En; [lia|].
    cbn [seq map hd_error]. f_equal. change (INR 0) with 0. lra. }
  split; [apply grid_increasing; exact Hdt|]. split.
  - intros t Hin. apply in_map_iff in Hin as (i & <- & Hi).
    apply in_seq in Hi. pose proof (pos_INR i) as Hi0.
    assert (Hi1 : INR i + 1 <= IZR (Zceil x)).
    { rewrite <- Hn, <- S_INR. apply le_INR. lia. }
    split; nra.
  - destruct (Z.to_nat (Zceil x)) as [|n] eqn:En; [lia|].
    rewrite grid_last. rewrite S_INR in Hn. nra.
Qed.

Lemma simular_paso_grid_witness :
  exists ts ys,
    simular (Crecimiento (CrecimientoExponencial.mk 1 1)) 10 0.1
    = inr (ts, ys) /\ strictly_increasing ts.
Proof.
  assert (Ht : 0 < 10) by lra.
  assert (Hdt : 0 < 0.1) by lra.
  destruct (simular_paso_grid _ _ 10 0.1 (crear_crecimiento 1 1 10) Ht Hdt)
    as (ts & ys & Hs & _ & _ & Hinc & _).
  exists ts, ys; split; [exact Hs | exact Hinc].
Defined.

(** ** What the integration loop does guarantee *)

(** X3. In the variable-volume regime, at every [t > 0], the call returns a
    non-negative mass and every state the loop reaches has non-negative mass
    and volume. *)
Theorem euler_nonneg (V0 C0 r_in C_in r_out : R) (m : Mezclas.model) (t : R) :
  Mezclas.init V0 C0 r_in C_in r_out = inr m ->
  Mezclas.volumen_constante m = false ->
  0 < t ->
  exists v trace,
    Mezclas.euler m t = inr (v, trace) /\
    Mezclas.calcular m t = inr v /\
    0 <= v /\ Forall nonneg_state trace.
Proof.
  intros Hinit Hvc Ht.
  apply Mezclas_init_inv in Hinit as (HV & HC & Hi & Hc & Ho & ->).
  simpl in Hvc. pose proof (variable_regime_neq _ _ Hvc) as Hne.
  set (m := Mezclas.mk V0 C0 r_in C_in r_out _).
  destruct (euler_ok m t Ht) as (v & trace & He & _ & Hv & Hall).
  { simpl. apply Rmult_le_pos; lra. }
  exists v, trace; split; [exact He|]; split; [|split; assumption].
  rewrite mezclas_calcular_variable; [rewrite He; reflexivity | exact Ht
    | exact Hvc | exact Hne].
Qed.

Lemma euler_nonneg_witness :
  exists v trace,
    Mezclas.euler (Mezclas.mk 100 0.5 3 0.1 1 false) 60 = inr (v, trace) /\
    0 <= v /\ Forall nonneg_state trace.
Proof.
  assert (Hreg : Rltb (Rabs (3 - 1)) 1e-10 = false)
    by (apply Rltb_false; rabs).
  assert (Hinit : Mezclas.init 100 0.5 3 0.1 1
                  = inr (Mezclas.mk 100 0.5 3 0.1 1 false)).
  { rewrite Mezclas_init_ok by lra. rewrite Hreg. reflexivity. }
  assert (Ht : 0 < 60) by lra.
  destruct (euler_nonneg 100 0.5 3 0.1 1 _ 60 Hinit eq_refl Ht)
    as (v & trace & He & _ & Hv & Hall).
  exists v, trace; split; [exact He | split; assumption].
Defined.




(** * Further properties of the models *)

(** ** Constructors *)

(** X5. [EnfriamientoNewton(T0, Ta, k)] is built exactly when [k > 0] and
    [T0 <> Ta]; otherwise it raises [ValueError], about [k] when [k <= 0]
    (also when the temperatures are equal as well) and about the
    temperatures when only they are at fault. *)
Theorem newton_init_spec (T0 Ta k : R) :
  ((exists m, EnfriamientoNewton.init T0 Ta k = inr m) <->
   (0 < k /\ T0 <> Ta)) /\
  (k <= 0 ->
   EnfriamientoNewton.init T0 Ta k
   = inl (ValueError "La constante de enfriamiento (k) debe ser mayor que 0")) /\
  (0 < k /\ T0 = Ta ->
   EnfriamientoNewton.init T0 Ta k
   = inl (ValueError
      "La temperatura inicial no puede ser igual a la temperatura ambiente")).
Proof.
  split; [split|split].
  - intros [m H]. apply Newton_init_inv in H as (Hk & HT & _). auto.
  - intros [Hk HT]. exists (EnfriamientoNewton.mk T0 Ta k).
    unfold EnfriamientoNewton.init.
    replace (Rleb k 0) with false by (symmetry; apply Rleb_false; exact Hk).
    replace (Reqb T0 Ta) with false by (symmetry; apply Reqb_false; exact HT).
    reflexivity.
  - intros Hk. unfold EnfriamientoNewton.init.
    replace (Rleb k 0) with true by (symmetry; apply Rleb_true; exact Hk).
    reflexivity.
  - intros [Hk HT]. unfold EnfriamientoNewton.init.
    replace (Rleb k 0) with false by (symmetry; apply Rleb_false; exact Hk).
    replace (Reqb T0 Ta) with true by (symmetry; apply Reqb_true; exact HT).
    reflexivity.
Qed.

(** X6. [Mezclas(V0, C0, r_in, C_in, r_out)] is built exactly when
    [V0 > 0] and the other four parameters are non-negative.  Otherwise it
    raises [ValueError]; the checks run in the order volume, initial
    concentration, flows, inlet concentration, and the first one that fails
    decides the message. *)
Theorem mezclas_init_spec (V0 C0 r_in C_in r_out : R) :
  ((exists m, Mezclas.init V0 C0 r_in C_in r_out = inr m) <->
   (0 < V0 /\ 0 <= C0 /\ 0 <= r_in /\ 0 <= C_in /\ 0 <= r_out)) /\
  (V0 <= 0 ->
   Mezclas.init V0 C0 r_in C_in r_out
   = inl (ValueError "El volumen inicial del tanque debe ser mayor que 0")) /\
  (0 < V0 /\ C0 < 0 ->
   Mezclas.init V0 C0 r_in C_in r_out
   = inl (ValueError "La concentración inicial no puede ser negativa")) /\
  (0 < V0 /\ 0 <= C0 /\ (r_in < 0 \/ r_out < 0) ->
   Mezclas.init V0 C0 r_in C_in r_out
   = inl (ValueError "Los caudales no pueden ser negativos")) /\
  (0 < V0 /\ 0 <= C0 /\ 0 <= r_in /\ 0 <= r_out /\ C_in < 0 ->
   Mezclas.init V0 C0 r_in C_in r_out
   = inl (ValueError "La concentración de entrada no puede ser negativa")).
Proof.
  split; [split|].
  - intros [m H]. apply Mezclas_init_inv in H. tauto.
  - intros (HV & HC & Hi & Hc & Ho). eexists. apply Mezclas_init_ok; assumption.
  - unfold Mezclas.init. repeat split.
    + intros HV.
      replace (Rleb V0 0) with true by (symmetry; apply Rleb_true; exact HV).
      reflexivity.
    + intros [HV HC].
      replace (Rleb V0 0) with false by (symmetry; apply Rleb_false; exact HV).
      replace (Rltb C0 0) with true by (symmetry; apply Rltb_true; exact HC).
      reflexivity.
    + intros (HV & HC & Hr).
      replace (Rleb V0 0) with false by (symmetry; apply Rleb_false; exact HV).
      replace (Rltb C0 0) with false by (symmetry; apply Rltb_false; exact HC).
      replace (Rltb r_in 0 || Rltb r_out 0)%bool with true; [reflexivity|].
      symmetry; apply orb_true_iff. rewrite !Rltb_true. exact Hr.
    + intros (HV & HC & Hi & Ho & Hc).
      replace (Rleb V0 0) with false by (symmetry; apply Rleb_false; exact HV).
      replace (Rltb C0 0) with false by (symmetry; apply Rltb_false; exact HC).
      replace (Rltb r_in 0) with false by (symmetry; apply Rltb_false; exact Hi).
      replace (Rltb r_out 0) with false by (symmetry; apply Rltb_false; exact Ho).
      replace (Rltb C_in 0) with true by (symmetry; apply Rltb_true; exact Hc).
      reflexivity.
Qed.

(** ** Newton cooling *)

Lemma exp_neg_unit (x : R) : 0 < x -> 0 < exp (- x) < 1.
Proof.
  intros Hx; split; [apply exp_pos|].
  rewrite <- exp_0. apply exp_increasing. lra.
Qed.

Lemma newton_calcular_pos (T0 Ta k t : R) :
  0 <= t ->
  EnfriamientoNewton.calcular (EnfriamientoNewton.mk T0 Ta k) t
  = Ta + (T0 - Ta) * exp (- k * t).
Proof.
  intros Ht; unfold EnfriamientoNewton.calcular; simpl.
  replace (Rltb t 0) with false by (symmetry; apply Rltb_false; exact Ht).
  reflexivity.
Qed.

(** X7. From time zero on, the temperature of a constructed model never
    moves away from the ambient temperature and never crosses it: a hot
    body ([Ta < T0]) does not warm, staying at [Ta] or above and at its
    value at time zero or below; a cold body ([T0 < Ta]) does not cool,
    staying at [Ta] or below and at its value at time zero or above.  The
    order is not strict, since [np.exp(-k t)] is [0] in double precision
    once [k t] is large and the temperature is [Ta] from then on. *)
Theorem newton_monotone_bounded (T0 Ta k : R) (m : EnfriamientoNewton.model)
    (t1 t2 : R) :
  EnfriamientoNewton.init T0 Ta k = inr m ->
  0 <= t1 <= t2 ->
  let y0 := EnfriamientoNewton.calcular m 0 in
  let y1 := EnfriamientoNewton.calcular m t1 in
  let y2 := EnfriamientoNewton.calcular m t2 in
  (Ta < T0 -> Ta <= y2 /\ y2 <= y1 /\ y1 <= y0) /\
  (T0 < Ta -> y0 <= y1 /\ y1 <= y2 /\ y2 <= Ta).
Proof.
  intros H [H1 H12]; apply Newton_init_inv in H as (Hk & HT & ->).
  simpl. rewrite !newton_calcular_pos by lra.
  rewrite Rmult_0_r, exp_0.
  assert (Hmono : forall a b, a <= b -> exp (- k * b) <= exp (- k * a)).
  { intros a b [Hab | ->]; [|lra].
    apply Rlt_le, exp_increasing. nra. }
  assert (He2 : 0 < exp (- k * t2)) by apply exp_pos.
  assert (He21 : exp (- k * t2) <= exp (- k * t1)) by (apply Hmono; lra).
  assert (He1 : exp (- k * t1) <= 1).
  { pose proof (Hmono 0 t1 H1) as He. rewrite Rmult_0_r, exp_0 in He.
    exact He. }
  split; intros Hs; repeat split; nra.
Qed.

Lemma newton_monotone_bounded_witness :
  25 <= EnfriamientoNewton.calcular (EnfriamientoNewton.mk 90 25 0.1) 100
  /\ EnfriamientoNewton.calcular (EnfriamientoNewton.mk 90 25 0.1) 100
     <= EnfriamientoNewton.calcular (EnfriamientoNewton.mk 90 25 0.1) 10.
Proof.
  assert (Hinit : EnfriamientoNewton.init 90 25 0.1
                  = inr (EnfriamientoNewton.mk 90 25 0.1)).
  { unfold EnfriamientoNewton.init.
    replace (Rleb 0.1 0) with false by (symmetry; apply Rleb_false; lra).
    replace (Reqb 90 25) with false by (symmetry; apply Reqb_false; lra).
    reflexivity. }
  assert (Ht : 0 <= 10 <= 100) by lra.
  destruct (newton_monotone_bounded 90 25 0.1 _ 10 100 Hinit Ht) as [Hhot _].
  assert (H25 : 25 < 90) by lra.
  destruct (Hhot H25) as (Ha & Hb & _). split; [exact Ha | exact Hb].
Defined.

(** X8. The temperature of a constructed model converges to the ambient
    temperature: for every tolerance there is a time after which the
    temperature stays within it. *)
Theorem newton_converge (T0 Ta k : R) (m : EnfriamientoNewton.model)
    (eps : R) :
  EnfriamientoNewton.init T0 Ta k = inr m ->
  0 < eps ->
  exists t0, 0 <= t0 /\
    forall t, t0 <= t -> Rabs (EnfriamientoNewton.calcular m t - Ta) < eps.
Proof.
  intros H Heps; apply Newton_init_inv in H as (Hk & HT & ->).
  set (D := Rabs (T0 - Ta)).
  assert (HD : 0 < D) by (unfold D; apply Rabs_pos_lt; lra).
  exists (D / (k * eps)).
  assert (Hke : 0 < k * eps) by (apply Rmult_lt_0_compat; lra).
  assert (Ht0 : 0 < D / (k * eps)) by (apply Rdiv_lt_0_compat; lra).
  split; [lra|]. intros t Ht.
  rewrite newton_calcular_pos by lra.
  replace (Ta + (T0 - Ta) * exp (- k * t) - Ta)
    with ((T0 - Ta) * exp (- k * t)) by lra.
  rewrite Rabs_mult. fold D.
  rewrite (Rabs_right (exp _)) by (apply Rle_ge, Rlt_le, exp_pos).
  assert (Hkt : D / eps <= k * t).
  { replace (D / eps) with (k * (D / (k * eps))) by (field; lra).
    apply Rmult_le_compat_l; lra. }
  assert (Hexp : k * t < exp (k * t)).
  { pose proof (exp_ineq1 (k * t)) as Hi.
    assert (k * t <> 0) by (apply Rgt_not_eq; nra). specialize (Hi H). lra. }
  replace (- k * t) with (- (k * t)) by lra. rewrite exp_Ropp.
  assert (Hpos : 0 < exp (k * t)) by apply exp_pos.
  apply Rmult_lt_reg_r with (exp (k * t)); [exact Hpos|].
  replace (D * / exp (k * t) * exp (k * t)) with D by (field; lra).
  assert (D <= eps * (k * t)).
  { apply Rmult_le_compat_l with (r := eps) in Hkt; [|lra].
    replace (eps * (D / eps)) with D in Hkt by (field; lra). exact Hkt. }
  nra.
Qed.

Lemma newton_converge_witness :
  exists t0, 0 <= t0 /\
    forall t, t0 <= t ->
      Rabs (EnfriamientoNewton.calcular (EnfriamientoNewton.mk 90 25 0.1) t
            - 25) < 1.
Proof.
  assert (Hinit : EnfriamientoNewton.init 90 25 0.1
                  = inr (EnfriamientoNewton.mk 90 25 0.1)).
  { unfold EnfriamientoNewton.init.
    replace (Rleb 0.1 0) with false by (symmetry; apply Rleb_false; lra).
    replace (Reqb 90 25) with false by (symmetry; apply Reqb_false; lra).
    reflexivity. }
  assert (Heps : 0 < 1) by lra.
  exact (newton_converge 90 25 0.1 _ 1 Hinit Heps).
Defined.

(** ** RL circuit *)

(** X9. With positive resistance and inductance the current starts at [0]
    and never moves away from [E / R] nor beyond it: for [0 <= t1 <= t2]
    and [E > 0], [0 <= i(t1) <= i(t2) <= E / R]; for [E < 0] the order is
    reversed; for [E = 0] the current is [0].  The order is not strict,
    since [1 - np.exp(-R t / L)] is [1] in double precision once [R t / L]
    is large and the current is [E / R] from then on. *)
Theorem circuito_carga (m : CircuitoRL.model) (t1 t2 : R) :
  0 < CircuitoRL.R m -> 0 < CircuitoRL.L m ->
  0 <= t1 <= t2 ->
  let i_max := CircuitoRL.E m / CircuitoRL.R m in
  CircuitoRL.calcular m 0 = inr 0 /\
  exists i1 i2,
    CircuitoRL.calcular m t1 = inr i1 /\
    CircuitoRL.calcular m t2 = inr i2 /\
    (0 < CircuitoRL.E m -> 0 <= i1 /\ i1 <= i2 /\ i2 <= i_max) /\
    (CircuitoRL.E m < 0 -> i_max <= i2 /\ i2 <= i1 /\ i1 <= 0) /\
    (CircuitoRL.E m = 0 -> i1 = 0 /\ i2 = 0).
Proof.
  intros HR HL [H1 H12]; simpl.
  destruct m as [E Rr L]; simpl in *.
  assert (Hcalc : forall t,
            CircuitoRL.calcular (CircuitoRL.mk E Rr L) t
            = inr (E / Rr * (1 - exp (- Rr * t / L)))).
  { intros t. unfold CircuitoRL.calcular; simpl.
    replace (Reqb Rr 0) with false by (symmetry; apply Reqb_false; lra).
    replace (Reqb L 0) with false by (symmetry; apply Reqb_false; lra).
    simpl. rewrite !py_div_ok by lra. reflexivity. }
  split.
  { rewrite Hcalc. f_equal.
    replace (- Rr * 0 / L) with 0 by (field; lra). rewrite exp_0. lra. }
  exists (E / Rr * (1 - exp (- Rr * t1 / L))),
         (E / Rr * (1 - exp (- Rr * t2 / L))).
  split; [apply Hcalc|]; split; [apply Hcalc|].
  assert (Hq : 0 < Rr / L) by (apply Rdiv_lt_0_compat; lra).
  assert (Hx : forall t, - Rr * t / L = - (Rr / L) * t)
    by (intros; field; lra).
  rewrite !Hx.
  assert (Hmono : forall a b,
            a <= b -> exp (- (Rr / L) * b) <= exp (- (Rr / L) * a)).
  { intros a b [Hab | ->]; [|lra].
    apply Rlt_le, exp_increasing. nra. }
  assert (He2 : 0 < exp (- (Rr / L) * t2)) by apply exp_pos.
  assert (He21 : exp (- (Rr / L) * t2) <= exp (- (Rr / L) * t1))
    by (apply Hmono; lra).
  assert (He1 : exp (- (Rr / L) * t1) <= 1).
  { pose proof (Hmono 0 t1 H1) as He. rewrite Rmult_0_r, exp_0 in He.
    exact He. }
  assert (HER : forall e, 0 < e -> 0 < e / Rr)
    by (intros; apply Rdiv_lt_0_compat; lra).
  split; [|split].
  - intros HE. specialize (HER E HE). repeat split; nra.
  - intros HE. specialize (HER (- E)). replace (- E / Rr) with (- (E / Rr)) in HER
      by (field; lra).
    assert (0 < - (E / Rr)) by (apply HER; lra). repeat split; nra.
  - intros ->. unfold Rdiv. rewrite !Rmult_0_l. split; reflexivity.
Qed.

Lemma circuito_carga_witness :
  CircuitoRL.calcular (CircuitoRL.mk 12 100 1) 0 = inr 0.
Proof.
  assert (HR : 0 < CircuitoRL.R (CircuitoRL.mk 12 100 1)) by (simpl; lra).
  assert (HL : 0 < CircuitoRL.L (CircuitoRL.mk 12 100 1)) by (simpl; lra).
  assert (Ht : 0 <= 0 <= 1) by lra.
  destruct (circuito_carga _ 0 1 HR HL Ht) as [H0 _]. exact H0.
Defined.

(** ** Tank at constant volume *)

(** X10. For a constructed tank at constant volume with outflow, the clamp
    at zero never acts: at every [t > 0] the mass is
    [A_ss + (A0 - A_ss) e^(-(r_out / V0) t)] itself, with [A0 = C0 V0] the
    initial mass and [A_ss = r_in C_in V0 / r_out] the steady-state mass.
    Over time the mass never moves away from [A_ss] and never crosses it:
    for [0 < t1 <= t2] it does not fall and stays at [A_ss] or below when
    [A0 <= A_ss], and does not rise and stays at [A_ss] or above when
    [A_ss <= A0].  The order is not strict, since [np.exp(-k t)] is [0] in
    double precision once [k t] is large and the mass is [A_ss] from then
    on. *)
Theorem mezclas_constante_sin_recorte (V0 C0 r_in C_in r_out : R)
    (m : Mezclas.model) (t1 t2 : R) :
  Mezclas.init V0 C0 r_in C_in r_out = inr m ->
  Rabs (r_in - r_out) < 1e-10 -> r_out <> 0 -> 0 < t1 <= t2 ->
  let A_ss := r_in * C_in * V0 / r_out in
  let A0 := C0 * V0 in
  exists A1 A2,
    Mezclas.calcular m t1 = inr A1 /\
    Mezclas.calcular m t2 = inr A2 /\
    A1 = A_ss + (A0 - A_ss) * exp (- (r_out / V0) * t1) /\
    A2 = A_ss + (A0 - A_ss) * exp (- (r_out / V0) * t2) /\
    0 <= A1 /\ 0 <= A2 /\
    (A0 <= A_ss -> A1 <= A2 /\ A2 <= A_ss) /\
    (A_ss <= A0 -> A_ss <= A2 /\ A2 <= A1).
Proof.
  intros Hinit Hreg Hro [Ht1 Ht12] A_ss A0.
  pose proof Hinit as Hinv.
  apply Mezclas_init_inv in Hinv as (HV & HC & Hi & Hc & Ho & _).
  assert (Hcalc : forall t, 0 < t ->
            Mezclas.calcular m t
            = inr (Rmax 0 (A_ss + (A0 - A_ss) * exp (- (r_out / V0) * t)))).
  { intros t Ht. pose proof Hinit as Hm.
    apply Mezclas_init_inv in Hm as (_ & _ & _ & _ & _ & ->).
    unfold Mezclas.calcular; simpl.
    replace (Rleb t 0) with false by (symmetry; apply Rleb_false; lra).
    replace (Rltb (Rabs (r_in - r_out)) 1e-10) with true
      by (symmetry; apply Rltb_true; exact Hreg).
    replace (Reqb r_out 0) with false by (symmetry; apply Reqb_false; exact Hro).
    simpl. rewrite !py_div_ok by lra. reflexivity. }
  assert (Hq : 0 < r_out / V0) by (apply Rdiv_lt_0_compat; lra).
  assert (He : forall t, 0 < t -> 0 < exp (- (r_out / V0) * t) < 1).
  { intros t Ht.
    replace (- (r_out / V0) * t) with (- (r_out / V0 * t)) by lra.
    apply exp_neg_unit. apply Rmult_lt_0_compat; lra. }
  assert (He12 : exp (- (r_out / V0) * t2) <= exp (- (r_out / V0) * t1)).
  { destruct Ht12 as [Hlt | ->]; [|lra].
    apply Rlt_le, exp_increasing. nra. }
  assert (HA0 : 0 <= A0) by (unfold A0; apply Rmult_le_pos; lra).
  assert (HAss : 0 <= A_ss).
  { unfold A_ss. apply Rmult_le_pos.
    - repeat apply Rmult_le_pos; lra.
    - apply Rlt_le, Rinv_0_lt_compat. lra. }
  pose proof (He t1 Ht1) as He1.
  assert (Ht2 : 0 < t2) by lra.
  pose proof (He t2 Ht2) as He2.
  rewrite (Hcalc t1 Ht1), (Hcalc t2 Ht2).
  set (e1 := exp (- (r_out / V0) * t1)) in *.
  set (e2 := exp (- (r_out / V0) * t2)) in *.
  assert (Hval1 : 0 <= A_ss + (A0 - A_ss) * e1) by nra.
  assert (Hval2 : 0 <= A_ss + (A0 - A_ss) * e2) by nra.
  exists (A_ss + (A0 - A_ss) * e1), (A_ss + (A0 - A_ss) * e2).
  split; [rewrite Rmax_right by exact Hval1; reflexivity|].
  split; [rewrite Rmax_right by exact Hval2; reflexivity|].
  split; [reflexivity|]. split; [reflexivity|].
  split; [exact Hval1|]. split; [exact Hval2|].
  split; intros Hc0; split; nra.
Qed.

Lemma mezclas_constante_sin_recorte_witness :
  exists A1 A2,
    Mezclas.calcular (Mezclas.mk 100 0.5 2 0.1 2 true) 30 = inr A1 /\
    Mezclas.calcular (Mezclas.mk 100 0.5 2 0.1 2 true) 60 = inr A2 /\
    2 * 0.1 * 100 / 2 <= A2 /\ A2 <= A1.
Proof.
  assert (Hreg : Rabs (2 - 2) < 1e-10).
  { replace (2 - 2) with 0 by lra. rewrite Rabs_R0. lra. }
  assert (Hinit : Mezclas.init 100 0.5 2 0.1 2
                  = inr (Mezclas.mk 100 0.5 2 0.1 2 true)).
  { rewrite Mezclas_init_ok by lra.
    replace (Rltb (Rabs (2 - 2)) 1e-10) with true; [reflexivity|].
    symmetry; apply Rltb_true; exact Hreg. }
  assert (Hro : 2 <> 0) by lra.
  assert (Ht : 0 < 30 <= 60) by lra.
  destruct (mezclas_constante_sin_recorte 100 0.5 2 0.1 2 _ 30 60
              Hinit Hreg Hro Ht)
    as (A1 & A2 & HA1 & HA2 & _ & _ & _ & _ & _ & Hdown).
  exists A1, A2; split; [exact HA1|]; split; [exact HA2|].
  apply Hdown; lra.
Defined.

(** ** The integration loop: volume and step count *)

Lemma euler_loop_volume (m : Mezclas.model) (t dt : R) :
  0 < dt ->
  forall (b : nat) (s : Mezclas.euler_state) v trace,
    Mezclas.current_V s
    = Rmax 0 (Mezclas.V0 m
              + (Mezclas.r_in m - Mezclas.r_out m) * Mezclas.current_t s) ->
    Mezclas.euler_loop m t dt b s = inr (v, trace) ->
    Forall (fun s' =>
              Mezclas.current_V s'
              = Rmax 0 (Mezclas.V0 m
                        + (Mezclas.r_in m - Mezclas.r_out m)
                          * Mezclas.current_t s') /\
              Mezclas.current_t s < Mezclas.current_t s' <= t) trace.
Proof.
  intros Hdt; induction b as [|b IH]; intros s v trace HP Hl.
  - simpl in Hl. destruct (Rltb (Mezclas.current_t s) t); [discriminate|].
    injection Hl as _ <-. constructor.
  - destruct (Rlt_dec (Mezclas.current_t s) t) as [Ht | Ht].
    + destruct (Rle_dec (Mezclas.current_V s) 0) as [HV | HV].
      * rewrite euler_loop_empty in Hl by assumption.
        injection Hl as _ <-. constructor.
      * rewrite euler_loop_turn in Hl by lra.
        set (s' := euler_next m t dt s) in *.
        destruct (Mezclas.euler_loop m t dt b s') as [e | [v' tr']] eqn:Hrec;
          [discriminate|].
        injection Hl as _ <-.
        assert (Hlin : Mezclas.current_V s
                       = Mezclas.V0 m
                         + (Mezclas.r_in m - Mezclas.r_out m)
                           * Mezclas.current_t s).
        { rewrite HP in HV |- *. rabs. }
        assert (Ht' : Mezclas.current_t s < Mezclas.current_t s' <= t).
        { unfold s'. rewrite euler_next_time. rabs. }
        assert (HP' : Mezclas.current_V s'
                      = Rmax 0 (Mezclas.V0 m
                                + (Mezclas.r_in m - Mezclas.r_out m)
                                  * Mezclas.current_t s')).
        { unfold s', euler_next; simpl. f_equal. lra. }
        constructor; [split; assumption|].
        eapply Forall_impl; [|exact (IH s' v' tr' HP' Hrec)].
        intros a (Ha & Hta); split; [exact Ha | lra].
    + rewrite euler_loop_done in Hl by lra.
      injection Hl as _ <-. constructor.
Qed.

(** X11. The volume the loop tracks follows the linear law of the tank: in
    every state reached by [calcular] at [t > 0] the volume is
    [max(0, V0 + (r_in - r_out) current_t)], and the time of the state lies
    in [(0, t]]. *)
Theorem euler_volume_law (V0 C0 r_in C_in r_out : R) (m : Mezclas.model)
    (t : R) :
  Mezclas.init V0 C0 r_in C_in r_out = inr m ->
  Mezclas.volumen_constante m = false ->
  0 < t ->
  exists v trace,
    Mezclas.euler m t = inr (v, trace) /\
    Mezclas.calcular m t = inr v /\
    Forall (fun s =>
              Mezclas.current_V s
              = Rmax 0 (V0 + (r_in - r_out) * Mezclas.current_t s) /\
              0 < Mezclas.current_t s <= t) trace.
Proof.
  intros Hinit Hvc Ht.
  apply Mezclas_init_inv in Hinit as (HV & HC & Hi & Hc & Ho & ->).
  simpl in Hvc. pose proof (variable_regime_neq _ _ Hvc) as Hne.
  set (m := Mezclas.mk V0 C0 r_in C_in r_out _).
  destruct (euler_ok m t Ht) as (v & trace & He & _).
  { simpl. apply Rmult_le_pos; lra. }
  exists v, trace; split; [exact He|]; split.
  - rewrite mezclas_calcular_variable; [rewrite He; reflexivity | exact Ht
      | exact Hvc | exact Hne].
  - unfold Mezclas.euler in He.
    apply (euler_loop_volume m t _ (euler_dt_pos t Ht)) in He.
    + exact He.
    + simpl. rewrite Rmult_0_r, Rplus_0_r. symmetry; apply Rmax_right; lra.
Qed.

Lemma euler_volume_law_witness :
  exists v trace,
    Mezclas.euler (Mezclas.mk 100 0.5 3 0.1 1 false) 60 = inr (v, trace) /\
    Forall (fun s =>
              Mezclas.current_V s
              = Rmax 0 (100 + (3 - 1) * Mezclas.current_t s) /\
              0 < Mezclas.current_t s <= 60) trace.
Proof.
  assert (Hreg : Rltb (Rabs (3 - 1)) 1e-10 = false)
    by (apply Rltb_false; rabs).
  assert (Hinit : Mezclas.init 100 0.5 3 0.1 1
                  = inr (Mezclas.mk 100 0.5 3 0.1 1 false)).
  { rewrite Mezclas_init_ok by lra. rewrite Hreg. reflexivity. }
  assert (Ht : 0 < 60) by lra.
  destruct (euler_volume_law 100 0.5 3 0.1 1 _ 60 Hinit eq_refl Ht)
    as (v & trace & He & _ & Hall).
  exists v, trace; split; [exact He | exact Hall].
Defined.

(** While the tank does not drain ([r_out <= r_in]) the loop is never cut
    short: it takes a step at least, the volume never falls below the one
    it started from, the last state is at time [t] exactly, and the mass of
    that state is what the loop returns. *)
Lemma euler_loop_filling_end (m : Mezclas.model) (t dt : R) :
  0 < dt -> Mezclas.r_out m <= Mezclas.r_in m ->
  forall (b : nat) (s : Mezclas.euler_state) v trace,
    0 < Mezclas.current_V s ->
    Mezclas.current_t s < t ->
    Mezclas.euler_loop m t dt b s = inr (v, trace) ->
    trace <> [] /\
    Forall (fun s' => Mezclas.current_V s <= Mezclas.current_V s') trace /\
    Mezclas.current_t (last trace s) = t /\
    v = Mezclas.current_A (last trace s).
Proof.
  intros Hdt Hfill; induction b as [|b IH]; intros s v trace HV Ht Hl.
  - simpl in Hl.
    replace (Rltb (Mezclas.current_t s) t) with true in Hl
      by (symmetry; apply Rltb_true; lra).
    discriminate.
  - rewrite euler_loop_turn in Hl by lra.
    assert (HVs : Mezclas.current_V s
                  <= Mezclas.current_V (euler_next m t dt s)).
    { unfold euler_next; simpl.
      assert (0 <= (Mezclas.r_in m - Mezclas.r_out m)
                   * Rmin dt (t - Mezclas.current_t s)).
      { apply Rmult_le_pos; [lra | rabs]. }
      eapply Rle_trans; [|apply Rmax_r]. lra. }
    assert (Hts : Mezclas.current_t (euler_next m t dt s) <= t).
    { rewrite euler_next_time. rabs. }
    set (s' := euler_next m t dt s) in *.
    destruct (Mezclas.euler_loop m t dt b s') as [e | [v' trace']] eqn:Hrec;
      [discriminate|].
    injection Hl as <- <-.
    destruct (Rlt_dec (Mezclas.current_t s') t) as [Hlt | Hge].
    + assert (HV' : 0 < Mezclas.current_V s') by lra.
      destruct (IH s' v' trace' HV' Hlt Hrec) as (_ & Hall & Hlast & Hv).
      split; [discriminate|]. split.
      * constructor; [exact HVs|].
        eapply Forall_impl; [|exact Hall].
        intros x Hx. eapply Rle_trans; [exact HVs | exact Hx].
      * rewrite !last_cons_poly. split; [exact Hlast | exact Hv].
    + rewrite euler_loop_done in Hrec by lra.
      injection Hrec as <- <-.
      split; [discriminate|]. split.
      * constructor; [exact HVs | constructor].
      * change (last [s'] s) with s'. split; [lra | reflexivity].
Qed.

(** X12. A tank that fills ([r_out < r_in]) is never found empty, so a call
    at [t > 0] is never cut short: it takes 1000 steps at least, the volume
    never falls below [V0], the last state of the loop is at time [t]
    exactly, and the mass of that state is the value returned. *)
Theorem euler_filling_steps (V0 C0 r_in C_in r_out : R) (m : Mezclas.model)
    (t : R) :
  Mezclas.init V0 C0 r_in C_in r_out = inr m ->
  Mezclas.volumen_constante m = false ->
  r_out < r_in -> 0 < t ->
  let s0 := Mezclas.mkState 0 (C0 * V0) V0 in
  exists v trace,
    Mezclas.euler m t = inr (v, trace) /\
    Mezclas.calcular m t = inr v /\
    (1000 <= List.length trace)%nat /\
    Forall (fun s => V0 <= Mezclas.current_V s) trace /\
    Mezclas.current_t (last trace s0) = t /\
    v = Mezclas.current_A (last trace s0).
Proof.
  intros Hinit Hvc Hfill Ht s0.
  apply Mezclas_init_inv in Hinit as (HV & HC & Hi & Hc & Ho & ->).
  simpl in Hvc. pose proof (variable_regime_neq _ _ Hvc) as Hne.
  set (m := Mezclas.mk V0 C0 r_in C_in r_out _).
  destruct (euler_ok m t Ht) as (v & trace & He & _).
  { simpl. apply Rmult_le_pos; lra. }
  exists v, trace; split; [exact He|]. split.
  { rewrite mezclas_calcular_variable; [rewrite He; reflexivity | exact Ht
      | exact Hvc | exact Hne]. }
  pose proof (euler_dt_pos t Ht) as Hdt.
  pose proof (Rmin_r 0.1 (t / 1000)) as Hdt'.
  set (dt := Rmin 0.1 (t / 1000)) in *.
  unfold Mezclas.euler in He. fold dt in He.
  assert (Hr : Mezclas.r_out m <= Mezclas.r_in m) by (simpl; lra).
  assert (HV0 : 0 < Mezclas.current_V s0) by (simpl; lra).
  assert (Ht0 : Mezclas.current_t s0 < t) by (simpl; lra).
  split.
  { assert (H999 : INR 999 = 999) by (rewrite INR_IZR_INZ; reflexivity).
    assert (Hlow : (999 < List.length trace)%nat).
    { eapply (euler_loop_filling m t dt Hdt Hr 999%nat _ s0);
        [exact HV0 | | exact He].
      simpl Mezclas.current_t. rewrite H999. lra. }
    lia. }
  destruct (euler_loop_filling_end m t dt Hdt Hr _ s0 v trace HV0 Ht0 He)
    as (_ & Hall & Hlast & Hv).
  split; [exact Hall|]. split; [exact Hlast | exact Hv].
Qed.

Lemma euler_filling_steps_witness :
  exists v trace,
    Mezclas.euler (Mezclas.mk 100 0.5 3 0.1 1 false) 60 = inr (v, trace) /\
    (1000 <= List.length trace)%nat.
Proof.
  assert (Hreg : Rltb (Rabs (3 - 1)) 1e-10 = false)
    by (apply Rltb_false; rabs).
  assert (Hinit : Mezclas.init 100 0.5 3 0.1 1
                  = inr (Mezclas.mk 100 0.5 3 0.1 1 false)).
  { rewrite Mezclas_init_ok by lra. rewrite Hreg. reflexivity. }
  assert (Hfill : 1 < 3) by lra.
  assert (Ht : 0 < 60) by lra.
  destruct (euler_filling_steps 100 0.5 3 0.1 1 _ 60 Hinit eq_refl Hfill Ht)
    as (v & trace & He & _ & Hlen & _).
  exists v, trace; split; [exact He | exact Hlen].
Defined.

(** ** Statistics: extrema, mean and rate of change *)

Lemma fold_left_Rmax_ge (xs : list R) (x : R) :
  x <= fold_left Rmax xs x /\
  forall y, In y xs -> y <= fold_left Rmax xs x.
Proof.
  revert x; induction xs as [|a xs IH]; intros x; simpl.
  - split; [lra | intros y []].
  - destruct (IH (Rmax x a)) as [H1 H2]. split.
    + eapply Rle_trans; [apply Rmax_l | exact H1].
    + intros y [<- | Hy]; [|apply H2; exact Hy].
      eapply Rle_trans; [apply Rmax_r | exact H1].
Qed.

Lemma fold_left_Rmin_le (xs : list R) (x : R) :
  fold_left Rmin xs x <= x /\
  forall y, In y xs -> fold_left Rmin xs x <= y.
Proof.
  revert x; induction xs as [|a xs IH]; intros x; simpl.
  - split; [lra | intros y []].
  - destruct (IH (Rmin x a)) as [H1 H2]. split.
    + eapply Rle_trans; [exact H1 | apply Rmin_l].
    + intros y [<- | Hy]; [|apply H2; exact Hy].
      eapply Rle_trans; [exact H1 | apply Rmin_r].
Qed.

Lemma fold_left_Rmax_in (xs : list R) (x : R) :
  In (fold_left Rmax xs x) (x :: xs).
Proof.
  revert x; induction xs as [|a xs IH]; intros x; simpl.
  - left; reflexivity.
  - destruct (IH (Rmax x a)) as [H | H].
    + unfold Rmax in H at 1. destruct (Rle_dec x a); auto.
    + right; right; exact H.
Qed.

Lemma fold_left_Rmin_in (xs : list R) (x : R) :
  In (fold_left Rmin xs x) (x :: xs).
Proof.
  revert x; induction xs as [|a xs IH]; intros x; simpl.
  - left; reflexivity.
  - destruct (IH (Rmin x a)) as [H | H].
    + unfold Rmin in H at 1. destruct (Rle_dec x a); auto.
    + right; right; exact H.
Qed.

Lemma np_sum_bounds (lo hi : R) (xs : list R) :
  (forall y, In y xs -> lo <= y <= hi) ->
  INR (List.length xs) * lo <= np_sum xs <= INR (List.length xs) * hi.
Proof.
  induction xs as [|a xs IH]; intros H.
  - simpl. lra.
  - change (np_sum (a :: xs)) with (a + np_sum xs).
    change (List.length (a :: xs)) with (S (List.length xs)).
    rewrite S_INR.
    destruct (H a (or_introl eq_refl)).
    destruct IH; [intros y Hy; apply H; right; exact Hy|]. lra.
Qed.

(** What a returned statistics record was computed from. *)
Lemma get_estadisticas_inv (ts ys : list R) (st : Modelo.Stats) :
  Modelo.get_estadisticas ts ys = inr (Some st) ->
  exists y0 ys' t0 ts' tasa,
    ys = y0 :: ys' /\ ts = t0 :: ts' /\
    Modelo.tasa_cambio_promedio ts ys = inr tasa /\
    st = Modelo.mkStats (np_mean ys) (np_max y0 ys') (np_min y0 ys') tasa
           (Modelo.equilibrio ts ys (last ts' t0)).
Proof.
  unfold Modelo.get_estadisticas.
  destruct ys as [|y0 ys']; [discriminate|].
  destruct ts as [|t0 ts']; [discriminate|].
  destruct (Modelo.tasa_cambio_promedio (t0 :: ts') (y0 :: ys'))
    as [e | tasa] eqn:Ht; [discriminate|].
  simpl. intros H; injection H as <-.
  exists y0, ys', t0, ts', tasa. repeat split; reflexivity.
Qed.

(** X13. Whenever statistics are returned, the reported maximum and
    minimum are samples of the trajectory and they bound every sample. *)
Theorem estadisticas_orden (ts ys : list R) (st : Modelo.Stats) :
  Modelo.get_estadisticas ts ys = inr (Some st) ->
  In (Modelo.maximo st) ys /\ In (Modelo.minimo st) ys /\
  (forall y, In y ys -> Modelo.minimo st <= y <= Modelo.maximo st).
Proof.
  intros H.
  apply get_estadisticas_inv in H
    as (y0 & ys' & t0 & ts' & tasa & -> & -> & _ & ->).
  simpl Modelo.maximo; simpl Modelo.minimo.
  unfold np_max, np_min.
  destruct (fold_left_Rmax_ge ys' y0) as [Hx0 Hx].
  destruct (fold_left_Rmin_le ys' y0) as [Hn0 Hn].
  split; [apply fold_left_Rmax_in|].
  split; [apply fold_left_Rmin_in|].
  intros y [<- | Hy]; [lra|]. split; [apply Hn | apply Hx]; exact Hy.
Qed.

Lemma estadisticas_orden_witness :
  exists st,
    Modelo.get_estadisticas [0; 1; 2] [3; 1; 2] = inr (Some st) /\
    In (Modelo.maximo st) [3; 1; 2] /\ In (Modelo.minimo st) [3; 1; 2].
Proof.
  assert (Hne : [3; 1; 2] <> @nil R) by discriminate.
  destruct (get_estadisticas_ok [0; 1; 2] [3; 1; 2] eq_refl Hne)
    as (st & Hst & _).
  exists st; split; [exact Hst|].
  destruct (estadisticas_orden _ _ _ Hst) as (Hmax & Hmin & _).
  split; [exact Hmax | exact Hmin].
Defined.

Lemma np_mask_all (xs : list R) (mask : list bool) :
  List.length xs = List.length mask ->
  (forall b, In b mask -> b = true) ->
  np_mask xs mask = inr xs.
Proof.
  revert mask; induction xs as [|x xs IH]; intros [|b mask] Hlen Hall;
    try discriminate; [reflexivity|].
  injection Hlen as Hlen. simpl.
  rewrite IH; [|exact Hlen | intros b' Hb'; apply Hall; right; exact Hb'].
  rewrite (Hall b (or_introl eq_refl)). reflexivity.
Qed.

Lemma np_mask_mismatch (xs : list R) (mask : list bool) :
  List.length xs <> List.length mask -> np_mask xs mask = inl IndexError.
Proof.
  revert mask; induction xs as [|x xs IH]; intros [|b mask] Hlen;
    simpl in *; try reflexivity; [congruence|].
  rewrite IH by (intros Heq; apply Hlen; congruence). reflexivity.
Qed.

Lemma np_sum_diff (x : R) (xs : list R) :
  np_sum (np_diff (x :: xs)) = last xs x - x.
Proof.
  revert x; induction xs as [|a xs IH]; intros x.
  - simpl. lra.
  - change (np_diff (x :: a :: xs)) with ((a - x) :: np_diff (a :: xs)).
    change (np_sum ((a - x) :: np_diff (a :: xs)))
      with (a - x + np_sum (np_diff (a :: xs))).
    rewrite IH.
    change (last (a :: xs) x) with (last (a :: xs) x).
    rewrite (last_cons_poly a x xs). lra.
Qed.

Lemma np_divide_const (h : R) (num den : list R) :
  List.length num = List.length den ->
  (forall d, In d den -> d = h) ->
  np_sum (np_divide num den) = np_sum num / h /\
  List.length (np_divide num den) = List.length num.
Proof.
  revert den; induction num as [|a num IH]; intros [|d den] Hlen Hall;
    try discriminate.
  - simpl. split; [unfold Rdiv; rewrite Rmult_0_l|]; reflexivity.
  - injection Hlen as Hlen.
    destruct (IH den Hlen) as [Hs Hl];
      [intros d' Hd'; apply Hall; right; exact Hd'|].
    unfold np_divide in *. simpl.
    rewrite (Hall d (or_introl eq_refl)).
    change (fold_right Rplus 0 (map (fun p => fst p / snd p) (combine num den)))
      with (np_sum (map (fun p => fst p / snd p) (combine num den))).
    rewrite Hs, Hl. split; [|reflexivity].
    change (np_sum (a :: num)) with (a + np_sum num).
    unfold Rdiv. lra.
Qed.

(** On a uniform grid every time increment passes the mask, and the mean
    of the rates telescopes. *)
Lemma tasa_promedio_uniforme (h : R) (ts ys : list R) :
  0 < h ->
  List.length ts = List.length ys -> (2 <= List.length ys)%nat ->
  (forall d, In d (np_diff ts) -> d = h) ->
  Modelo.tasa_cambio_promedio ts ys
  = inr ((last ys 0 - hd 0 ys) / (INR (List.length ys - 1) * h)).
Proof.
  intros Hh Hlen H2 Hgrid.
  destruct ys as [|y0 ys']; [simpl in H2; lia|].
  destruct ts as [|t0 ts']; [discriminate|].
  unfold Modelo.tasa_cambio_promedio.
  replace ((1 <? List.length (y0 :: ys'))%nat) with true
    by (symmetry; apply Nat.ltb_lt; lia).
  replace ((1 <? List.length (t0 :: ts'))%nat) with true
    by (symmetry; apply Nat.ltb_lt; lia).
  cbn [andb].
  set (dts := np_diff (t0 :: ts')) in *.
  set (dys := np_diff (y0 :: ys')) in *.
  assert (Hld : List.length dys = List.length dts).
  { unfold dys, dts. rewrite !np_diff_length, Hlen. reflexivity. }
  assert (Hldy : List.length dys = (List.length (y0 :: ys') - 1)%nat).
  { unfold dys. rewrite np_diff_length. simpl; lia. }
  assert (Hmask : forall b, In b (map (fun d => Rltb 0 d) dts) -> b = true).
  { intros b Hb. apply in_map_iff in Hb as (d & <- & Hd).
    rewrite (Hgrid d Hd). apply Rltb_true; exact Hh. }
  assert (Hex : existsb (fun b => b) (map (fun d => Rltb 0 d) dts) = true).
  { destruct dts as [|d dts'] eqn:Ed.
    - simpl in Hld. rewrite Hldy in Hld. simpl in Hld, H2. lia.
    - simpl. rewrite (Hgrid d (or_introl eq_refl)).
      replace (Rltb 0 h) with true by (symmetry; apply Rltb_true; exact Hh).
      reflexivity. }
  rewrite Hex.
  rewrite (np_mask_all dys) by (rewrite ?length_map; auto).
  rewrite (np_mask_all dts) by (rewrite ?length_map; auto).
  cbn [bind]. unfold ret. f_equal.
  destruct (np_divide_const h dys dts Hld Hgrid) as [Hs Hl].
  unfold np_mean. rewrite Hs, Hl, Hldy.
  unfold dys. rewrite np_sum_diff.
  rewrite (last_cons_poly y0 0 ys'). simpl hd.
  assert (Hn : 0 < INR (List.length (y0 :: ys') - 1)).
  { apply lt_0_INR. simpl in *; lia. }
  field. lra.
Qed.

(** X14. On a uniform time grid of step [h > 0] with at least two samples,
    the average rate of change is the overall slope: the change of the value
    from the first sample to the last, divided by the time between them,
    [(n - 1) h]. *)
Theorem tasa_cambio_uniforme (h : R) (ts ys : list R) :
  0 < h ->
  List.length ts = List.length ys -> (2 <= List.length ys)%nat ->
  (forall d, In d (np_diff ts) -> d = h) ->
  exists st,
    Modelo.get_estadisticas ts ys = inr (Some st) /\
    Modelo.tasa_cambio st
    = (last ys 0 - hd 0 ys) / (INR (List.length ys - 1) * h).
Proof.
  intros Hh Hlen H2 Hgrid.
  assert (Hne : ys <> []) by (intros ->; simpl in H2; lia).
  destruct (get_estadisticas_ok ts ys Hlen Hne) as (st & Hst & _).
  exists st; split; [exact Hst|].
  apply get_estadisticas_inv in Hst
    as (y0 & ys' & t0 & ts' & tasa & -> & -> & Htasa & ->).
  rewrite (tasa_promedio_uniforme h) in Htasa by assumption.
  injection Htasa as <-. reflexivity.
Qed.

Lemma tasa_cambio_uniforme_witness :
  exists st,
    Modelo.get_estadisticas [0; 1; 2] [3; 1; 7] = inr (Some st) /\
    Modelo.tasa_cambio st = (7 - 3) / (INR 2 * 1).
Proof.
  assert (Hh : 0 < 1) by lra.
  assert (H2 : (2 <= List.length [3; 1; 7])%nat) by (simpl; lia).
  assert (Hgrid : forall d, In d (np_diff [0; 1; 2]) -> d = 1).
  { simpl. intros d [<- | [<- | []]]; lra. }
  destruct (tasa_cambio_uniforme 1 [0; 1; 2] [3; 1; 7] Hh eq_refl H2 Hgrid)
    as (st & Hst & Htasa).
  exists st; split; [exact Hst | exact Htasa].
Defined.

(** X15. Time and value sequences of different lengths, both with two
    samples or more, make [get_estadisticas] raise [IndexError] as soon as
    one time increment is positive: the mask built from the time
    increments does not fit the value increments. *)
Theorem estadisticas_longitudes_distintas (ts ys : list R) :
  List.length ts <> List.length ys ->
  (2 <= List.length ts)%nat -> (2 <= List.length ys)%nat ->
  (exists d, In d (np_diff ts) /\ 0 < d) ->
  Modelo.get_estadisticas ts ys = inl IndexError.
Proof.
  intros Hne Ht Hy (d & Hd & Hpos).
  unfold Modelo.get_estadisticas.
  destruct ys as [|y0 ys']; [simpl in Hy; lia|].
  destruct ts as [|t0 ts']; [simpl in Ht; lia|].
  unfold Modelo.tasa_cambio_promedio.
  replace ((1 <? List.length (y0 :: ys'))%nat) with true
    by (symmetry; apply Nat.ltb_lt; lia).
  replace ((1 <? List.length (t0 :: ts'))%nat) with true
    by (symmetry; apply Nat.ltb_lt; lia).
  cbn [andb].
  assert (Hex : existsb (fun b => b)
                  (map (fun d => Rltb 0 d) (np_diff (t0 :: ts'))) = true).
  { apply existsb_exists. exists true; split; [|reflexivity].
    apply in_map_iff. exists d; split; [apply Rltb_true; exact Hpos | exact Hd]. }
  rewrite Hex.
  rewrite np_mask_mismatch; [reflexivity|].
  rewrite length_map, !np_diff_length. simpl in *. lia.
Qed.

Lemma estadisticas_longitudes_distintas_witness :
  Modelo.get_estadisticas [0; 1; 2] [5; 6] = inl IndexError.
Proof.
  apply estadisticas_longitudes_distintas.
  - simpl; lia.
  - simpl; lia.
  - simpl; lia.
  - exists (1 - 0); split; [simpl; left; reflexivity | lra].
Defined.

(** X16. The average rate of change is [0] when no time increment is
    positive, and in particular when there is a single sample; no exception
    is raised then, whatever the two lengths. *)
Theorem tasa_cambio_sin_avance (ts ys : list R) :
  ts <> [] -> ys <> [] ->
  (forall d, In d (np_diff ts) -> d <= 0) ->
  exists st,
    Modelo.get_estadisticas ts ys = inr (Some st) /\
    Modelo.tasa_cambio st = 0.
Proof.
  intros Ht Hy Hflat.
  destruct ys as [|y0 ys']; [congruence|].
  destruct ts as [|t0 ts']; [congruence|].
  unfold Modelo.get_estadisticas.
  assert (Htasa : Modelo.tasa_cambio_promedio (t0 :: ts') (y0 :: ys') = inr 0).
  { unfold Modelo.tasa_cambio_promedio.
    destruct (_ && _)%bool; [|reflexivity].
    replace (existsb (fun b => b)
               (map (fun d => Rltb 0 d) (np_diff (t0 :: ts')))) with false;
      [reflexivity|].
    symmetry. apply not_true_is_false. intros Hex.
    apply existsb_exists in Hex as (b & Hb & ->).
    apply in_map_iff in Hb as (d & Hd & Hin).
    apply Rltb_true in Hd. specialize (Hflat d Hin). lra. }
  rewrite Htasa. cbn [bind]. eexists; split; reflexivity.
Qed.

Lemma tasa_cambio_sin_avance_witness :
  exists st,
    Modelo.get_estadisticas [4] [7] = inr (Some st) /\
    Modelo.tasa_cambio st = 0.
Proof.
  apply tasa_cambio_sin_avance.
  - discriminate.
  - discriminate.
  - simpl. intros d [].
Defined.

(** ** Interpretation of a tank without time values *)

(** X17. Given values but no times, the interpretation of a constructed
    tank raises [IndexError] at [t_values[-1]], in the variable-volume
    regime and at constant volume with outflow alike (the guard
    [len(t_values) > 0] protects only the final volume); at constant volume
    without outflow it returns its fixed message. *)
Theorem mezclas_interpretacion_sin_tiempos (V0 C0 r_in C_in r_out : R)
    (m : Mezclas.model) (y_values : list R) :
  Mezclas.init V0 C0 r_in C_in r_out = inr m ->
  y_values <> [] ->
  (Mezclas.volumen_constante m = false \/ 0 < r_out ->
   Mezclas.get_interpretacion m [] y_values = inl IndexError) /\
  (Mezclas.volumen_constante m = true /\ r_out = 0 ->
   Mezclas.get_interpretacion m [] y_values
   = inr "Sistema sin flujo de salida. La cantidad de soluto no cambia con el tiempo.").
Proof.
  intros Hinit Hne.
  apply Mezclas_init_inv in Hinit as (HV & HC & Hi & Hc & Ho & ->).
  destruct y_values as [|y ys]; [congruence|].
  unfold Mezclas.get_interpretacion.
  cbn [py_last bind ret Mezclas.V0 Mezclas.r_in Mezclas.r_out Mezclas.C_in
       Mezclas.C0 Mezclas.volumen_constante].
  replace (Rltb 0 V0) with true by (symmetry; apply Rltb_true; exact HV).
  rewrite py_div_ok by lra. cbn [bind].
  split.
  - intros [Hvar | Hout].
    + rewrite Hvar. reflexivity.
    + destruct (Rltb (Rabs (r_in - r_out)) 1e-10); [|reflexivity].
      replace (Rltb 0 r_out) with true by (symmetry; apply Rltb_true; exact Hout).
      rewrite (py_div_ok V0 r_out) by lra. cbn [bind].
      rewrite (py_div_ok (r_in * C_in * V0) r_out) by lra. cbn [bind].
      rewrite (py_div_ok _ V0) by lra. cbn [bind].
      reflexivity.
  - intros [Hcte ->]. rewrite Hcte.
    replace (Rltb 0 0) with false by (symmetry; apply Rltb_false; lra).
    reflexivity.
Qed.

Lemma mezclas_interpretacion_sin_tiempos_witness :
  Mezclas.get_interpretacion (Mezclas.mk 100 0.5 3 0.1 1 false) [] [50]
  = inl IndexError.
Proof.
  assert (Hreg : Rltb (Rabs (3 - 1)) 1e-10 = false)
    by (apply Rltb_false; rabs).
  assert (Hinit : Mezclas.init 100 0.5 3 0.1 1
                  = inr (Mezclas.mk 100 0.5 3 0.1 1 false)).
  { rewrite Mezclas_init_ok by lra. rewrite Hreg. reflexivity. }
  assert (Hne : [50] <> @nil R) by discriminate.
  destruct (mezclas_interpretacion_sin_tiempos 100 0.5 3 0.1 1 _ [50]
              Hinit Hne) as [Herr _].
  apply Herr. left; reflexivity.
Defined.

(** ** The grid run: failures and statistics *)

Lemma map_py_length {A B : Type} (f : A -> py B) (xs : list A) (ys : list B) :
  map_py f xs = inr ys -> List.length ys = List.length xs.
Proof.
  revert ys; induction xs as [|x xs IH]; intros ys H.
  - injection H as <-. reflexivity.
  - simpl in H. destruct (f x) as [e | y]; [discriminate|]. cbn [bind] in H.
    destruct (map_py f xs) as [e | ys']; [discriminate|]. cbn [bind] in H.
    injection H as <-. simpl. rewrite (IH ys' eq_refl). reflexivity.
Qed.

(** What a stored simulation was computed from. *)
Lemma app_simular_inv (p : SimuladorApp.params) (sim : SimuladorApp.simulacion) :
  SimuladorApp.simular p = inr sim ->
  exists m,
    SimuladorApp.crear_modelo p = inr m /\
    SimuladorApp.t_values sim = np_linspace 0 (SimuladorApp.t_max p) 1000 /\
    map_py (calcular m) (SimuladorApp.t_values sim)
    = inr (SimuladorApp.y_values sim) /\
    Modelo.get_estadisticas (SimuladorApp.t_values sim)
      (SimuladorApp.y_values sim) = inr (SimuladorApp.stats sim) /\
    get_interpretacion m (SimuladorApp.t_values sim)
      (SimuladorApp.y_values sim) = inr (SimuladorApp.interpretacion sim) /\
    SimuladorApp.nombre sim = name m.
Proof.
  unfold SimuladorApp.simular.
  destruct (SimuladorApp.crear_modelo p) as [e | m]; [discriminate|].
  cbn [bind].
  destruct (map_py (calcular m) _) as [e | ys] eqn:Hys; [discriminate|].
  cbn [bind]. unfold get_estadisticas.
  destruct (Modelo.get_estadisticas _ ys) as [e | st] eqn:Hst; [discriminate|].
  cbn [bind].
  destruct (get_interpretacion m _ ys) as [e | txt] eqn:Htxt; [discriminate|].
  cbn [bind]. intros H; injection H as <-. simpl.
  exists m. repeat split; assumption.
Qed.

Lemma crear_modelo_error (p : SimuladorApp.params) (e : py_exn) :
  SimuladorApp.crear_modelo p = inl e -> exists msg, e = ValueError msg.
Proof.
  destruct p; simpl.
  - discriminate.
  - unfold EnfriamientoNewton.init.
    destruct (Rleb k 0); [intros H; injection H as <-; eexists; reflexivity|].
    destruct (Reqb T0 Ta); [intros H; injection H as <-; eexists; reflexivity|].
    discriminate.
  - discriminate.
  - unfold Mezclas.init.
    destruct (Rleb V0 0); [intros H; injection H as <-; eexists; reflexivity|].
    destruct (Rltb C0 0); [intros H; injection H as <-; eexists; reflexivity|].
    destruct (_ || _)%bool; [intros H; injection H as <-; eexists; reflexivity|].
    destruct (Rltb C_in 0); [intros H; injection H as <-; eexists; reflexivity|].
    discriminate.
Qed.

(** X18. The grid run fails exactly when the constructor of the model
    fails, with the constructor's own [ValueError]; nothing else in it
    raises.  When it succeeds, the stored simulation carries the name of the
    model, 1000 times, 1000 values and a non-empty statistics dictionary. *)
Theorem app_simular_errores (p : SimuladorApp.params) :
  (forall e, SimuladorApp.simular p = inl e <->
             SimuladorApp.crear_modelo p = inl e) /\
  (forall e, SimuladorApp.simular p = inl e -> exists msg, e = ValueError msg) /\
  (forall sim, SimuladorApp.simular p = inr sim ->
     exists m,
       SimuladorApp.crear_modelo p = inr m /\
       SimuladorApp.nombre sim = name m /\
       List.length (SimuladorApp.t_values sim) = 1000%nat /\
       List.length (SimuladorApp.y_values sim) = 1000%nat /\
       SimuladorApp.stats sim <> None).
Proof.
  assert (Hiff : forall e, SimuladorApp.simular p = inl e <->
                           SimuladorApp.crear_modelo p = inl e).
  { intros e. destruct (SimuladorApp.crear_modelo p) as [e0 | m] eqn:Hm.
    - unfold SimuladorApp.simular. rewrite Hm. cbn [bind].
      split; intros H; injection H as <-; reflexivity.
    - destruct (app_simular_ok p m Hm) as (sim & Hs & _).
      rewrite Hs. split; discriminate. }
  split; [exact Hiff|]. split.
  - intros e He. apply Hiff in He. eapply crear_modelo_error; exact He.
  - intros sim Hs.
    apply app_simular_inv in Hs as (m & Hm & Hts & Hys & Hst & _ & Hname).
    exists m. split; [exact Hm|]. split; [exact Hname|].
    assert (Hlt : List.length (SimuladorApp.t_values sim) = 1000%nat).
    { rewrite Hts. unfold np_linspace. rewrite length_map, length_seq.
      reflexivity. }
    apply map_py_length in Hys.
    split; [exact Hlt|]. split; [congruence|].
    intros Hnone. rewrite Hnone in Hst.
    destruct (SimuladorApp.y_values sim) as [|y ys]; [simpl in Hys; lia|].
    destruct (SimuladorApp.t_values sim) as [|t ts]; [simpl in Hlt; lia|].
    unfold Modelo.get_estadisticas in Hst.
    destruct (Modelo.tasa_cambio_promedio _ _); discriminate.
Qed.

Lemma np_diff_grid (a step : R) (k n : nat) :
  forall d, In d (np_diff (map (fun i => a + INR i * step) (seq k n))) ->
            d = step.
Proof.
  revert k; induction n as [|n IH]; intros k d Hd; [destruct Hd|].
  destruct n as [|n]; [destruct Hd|].
  change (seq k (S (S n))) with (k :: seq (S k) (S n)) in Hd.
  change (seq (S k) (S n)) with (S k :: seq (S (S k)) n) in Hd.
  cbn [map] in Hd.
  change (np_diff (?x0 :: ?x1 :: ?tl)) with ((x1 - x0) :: np_diff (x1 :: tl))
    in Hd.
  destruct Hd as [<- | Hd].
  - rewrite S_INR. lra.
  - apply (IH (S k)). exact Hd.
Qed.

(** X19. For a positive horizon, the average rate of change the grid run
    stores is the overall slope of the trajectory: the last value minus the
    first, divided by [t_max]. *)
Theorem app_tasa_cambio (p : SimuladorApp.params)
    (sim : SimuladorApp.simulacion) :
  SimuladorApp.simular p = inr sim ->
  0 < SimuladorApp.t_max p ->
  exists st,
    SimuladorApp.stats sim = Some st /\
    Modelo.tasa_cambio st
    = (last (SimuladorApp.y_values sim) 0 - hd 0 (SimuladorApp.y_values sim))
      / SimuladorApp.t_max p.
Proof.
  intros Hs Ht.
  apply app_simular_inv in Hs as (m & _ & Hts & Hys & Hst & _).
  apply map_py_length in Hys.
  set (ts := SimuladorApp.t_values sim) in *.
  set (ys := SimuladorApp.y_values sim) in *.
  set (tm := SimuladorApp.t_max p) in *.
  assert (H999 : INR (1000 - 1) = 999).
  { rewrite INR_IZR_INZ. reflexivity. }
  assert (Hlt : List.length ts = 1000%nat).
  { rewrite Hts. unfold np_linspace. rewrite length_map, length_seq.
    reflexivity. }
  assert (Hly : List.length ys = 1000%nat) by congruence.
  assert (Hgrid : forall d, In d (np_diff ts) -> d = (tm - 0) / INR (1000 - 1)).
  { rewrite Hts. unfold np_linspace. apply np_diff_grid. }
  assert (Hh : 0 < (tm - 0) / INR (1000 - 1)).
  { rewrite H999. lra. }
  assert (H2 : (2 <= List.length ys)%nat) by lia.
  assert (Hlen : List.length ts = List.length ys) by congruence.
  pose proof (tasa_promedio_uniforme _ ts ys Hh Hlen H2 Hgrid) as Htasa.
  destruct (SimuladorApp.stats sim) as [st|] eqn:Est.
  - exists st; split; [reflexivity|].
    apply get_estadisticas_inv in Hst
      as (y0 & ys' & t0 & ts' & tasa & Hy & Hx & Htasa' & ->).
    rewrite Htasa in Htasa'. injection Htasa' as <-.
    simpl Modelo.tasa_cambio. rewrite Hly, H999. field. lra.
  - exfalso.
    destruct ys as [|y ys']; [simpl in Hly; lia|].
    destruct ts as [|t ts']; [simpl in Hlt; lia|].
    unfold Modelo.get_estadisticas in Hst.
    destruct (Modelo.tasa_cambio_promedio _ _); discriminate.
Qed.

Lemma app_tasa_cambio_witness :
  exists sim st,
    SimuladorApp.simular (SimuladorApp.crecimiento 1 1 10) = inr sim /\
    SimuladorApp.stats sim = Some st /\
    Modelo.tasa_cambio st
    = (last (SimuladorApp.y_values sim) 0 - hd 0 (SimuladorApp.y_values sim))
      / 10.
Proof.
  destruct (app_simular_ok _ _ (crear_crecimiento 1 1 10)) as (sim & Hs & _).
  assert (Ht : 0 < SimuladorApp.t_max (SimuladorApp.crecimiento 1 1 10))
    by (simpl; lra).
  destruct (app_tasa_cambio _ sim Hs Ht) as (st & Hst & Htasa).
  exists sim, st. split; [exact Hs|]. split; [exact Hst | exact Htasa].
Defined.

(** ** The stepping run on a horizon that is a multiple of the step *)

(** X20. When the horizon is a whole number [n] of steps, the stepping run
    returns [n + 1] samples at least and [n + 2] at most, as many values as
    times; sample [j] is at time [j dt], so sample [n] is at [t_max].  The
    sample beyond [t_max] is the one [np.arange(0, t_max + dt, dt)] adds
    when [(t_max + dt) / dt] is rounded up in double precision. *)
Theorem simular_paso_multiplo (p : SimuladorApp.params) (m : modelo)
    (n : nat) (dt : R) :
  SimuladorApp.crear_modelo p = inr m ->
  0 < dt ->
  exists ts ys,
    simular m (INR n * dt) dt = inr (ts, ys) /\
    (S n <= List.length ts <= n + 2)%nat /\
    List.length ys = List.length ts /\
    nth n ts 0 = INR n * dt /\
    (forall j, (j < List.length ts)%nat -> nth j ts 0 = INR j * dt).
Proof.
  intros Hm Hdt.
  destruct (simular_ok p m (INR n * dt) dt Hm) as (ys & Hs & Hlen); [lra|].
  assert (Hcount : Z.to_nat (Zceil ((INR n * dt + dt - 0) / dt)) = S n).
  { replace ((INR n * dt + dt - 0) / dt) with (INR n + 1) by (field; lra).
    rewrite (Zceil_eq (Z.of_nat n + 1)).
    - lia.
    - rewrite plus_IZR, <- INR_IZR_INZ. lra. }
  rewrite Hcount in Hs, Hlen.
  eexists _, ys; split; [exact Hs|].
  rewrite length_map, length_seq.
  split; [lia|]. split; [exact Hlen|]. split.
  - rewrite grid_nth by lia. lra.
  - intros j Hj. rewrite grid_nth by exact Hj. lra.
Qed.

Lemma simular_paso_multiplo_witness :
  exists ts ys,
    simular (Crecimiento (CrecimientoExponencial.mk 1 1)) (INR 100 * 0.1) 0.1
    = inr (ts, ys) /\
    (101 <= List.length ts)%nat /\ nth 100 ts 0 = INR 100 * 0.1.
Proof.
  assert (Hdt : 0 < 0.1) by lra.
  destruct (simular_paso_multiplo _ _ 100 0.1 (crear_crecimiento 1 1 10) Hdt)
    as (ts & ys & Hs & [Hlen _] & _ & Hnth & _).
  exists ts, ys. split; [exact Hs|]. split; [exact Hlen | exact Hnth].
Defined.

(** ** The results panels *)

Lemma round_half_even_0 : round_half_even 0 = 0%Z.
Proof.
  unfold round_half_even. rewrite (ZfloorZ 0).
  destruct (Rlt_dec (0 - 0) (1 / 2)); [reflexivity | lra].
Qed.

Lemma zeros_snoc (d : nat) : (zeros d ++ "0")%string = zeros (S d).
Proof.
  induction d as [|d IH]; [reflexivity|].
  simpl. f_equal. exact IH.
Qed.

(** Zero, with [S d] digits after the point. *)
Lemma format_f_zero (d : nat) : format_f (S d) 0 = ("0." ++ zeros (S d))%string.
Proof.
  unfold format_f.
  rewrite Rabs_R0, Rmult_0_l, round_half_even_0.
  change (Z.to_nat 0) with 0%nat.
  assert (Hp : (10 ^ S d)%nat <> 0%nat) by (apply Nat.pow_nonzero; lia).
  rewrite Nat.Div0.div_0_l, Nat.Div0.mod_0_l.
  destruct (Rlt_dec 0 0) as [H | _]; [lra|].
  change (string_of_nat 0) with "0"%string.
  change (String.length "0") with 1%nat.
  replace (S d - 1)%nat with d by lia.
  rewrite zeros_snoc. reflexivity.
Qed.

Lemma stats_get_promedio_keys (st : Modelo.Stats) :
  Paneles.stats_get (Some st) "tiempo_equilibrio" 0
  = Modelo.tiempo_equilibrio st /\
  Paneles.stats_get (Some st) "tasa_cambio" 0 = Modelo.tasa_cambio st.
Proof. split; reflexivity. Qed.

(** Replace every lookup of a key the statistics dictionary does not hold
    by its default. *)
Ltac claves_ausentes :=
  repeat match goal with
         | |- context [Paneles.stats_get ?s ?k ?d] =>
             progress
               (replace (Paneles.stats_get s k d) with d
                  by (destruct s; reflexivity))
         end.

(** X21. The statistics panel's interpretation reads keys the statistics
    dictionary never holds.  Whatever the model and its statistics, the
    cooling text reports both temperatures as [0.0], and the circuit and
    tank texts are fixed strings with every figure [0]; an empty dictionary
    gives the "not enough data" message, and a model key other than the
    four gives the "not available" message. *)
Theorem panel_interpretacion (st : Modelo.Stats) :
  Paneles.obtener_interpretacion_modelo "enfriamiento" (Some st)
  = fstr ["El objeto se enfría desde "; "0.0";
          "°C hacia la temperatura ambiente de "; "0.0"; "°C. ";
          "El tiempo de estabilización fue de ";
          format_f 1 (Modelo.tiempo_equilibrio st); " segundos. ";
          "La tasa de enfriamiento inicial fue de ";
          format_f 4 (Rabs (Modelo.tasa_cambio st)); "°C/seg."] /\
  Paneles.obtener_interpretacion_modelo "circuito_rl" (Some st)
  = "El circuito alcanza aproximadamente el 0.0% de su corriente máxima de 0.0000A. La constante de tiempo (τ = L/R) es de 0.0000 segundos. El tiempo de establecimiento (5τ) es de 0.0000 segundos." /\
  Paneles.obtener_interpretacion_modelo "mezclas" (Some st)
  = "La concentración en el tanque tiende a 0.0000 g/L. El tiempo para alcanzar el 95% del equilibrio es de 0.00 segundos. La tasa de cambio inicial es de 0.000000 (g/L)/s." /\
  (forall modelo,
     Paneles.obtener_interpretacion_modelo modelo None
     = "No hay datos suficientes para generar una interpretación.") /\
  (forall modelo,
     modelo <> "crecimiento" -> modelo <> "enfriamiento" ->
     modelo <> "circuito_rl" -> modelo <> "mezclas" ->
     Paneles.obtener_interpretacion_modelo modelo (Some st)
     = "Interpretación no disponible para este modelo.").
Proof.
  destruct (stats_get_promedio_keys st) as [Hte Htasa].
  split; [|split; [|split; [|split]]].
  - unfold Paneles.obtener_interpretacion_modelo.
    cbn [Paneles.stats_items Paneles.dict_get String.eqb Ascii.eqb Bool.eqb].
    rewrite Hte, Htasa. claves_ausentes.
    rewrite (format_f_zero 0). reflexivity.
  - unfold Paneles.obtener_interpretacion_modelo.
    cbn [Paneles.stats_items Paneles.dict_get String.eqb Ascii.eqb Bool.eqb].
    claves_ausentes.
    rewrite (format_f_zero 0), (format_f_zero 3). reflexivity.
  - unfold Paneles.obtener_interpretacion_modelo.
    cbn [Paneles.stats_items Paneles.dict_get String.eqb Ascii.eqb Bool.eqb].
    claves_ausentes.
    rewrite (format_f_zero 1), (format_f_zero 3), (format_f_zero 5).
    reflexivity.
  - intros modelo. reflexivity.
  - intros modelo H1 H2 H3 H4.
    unfold Paneles.obtener_interpretacion_modelo.
    cbn [Paneles.stats_items Paneles.dict_get].
    apply String.eqb_neq in H1, H2, H3, H4.
    rewrite String.eqb_sym in H1. rewrite String.eqb_sym in H2.
    rewrite String.eqb_sym in H3. rewrite String.eqb_sym in H4.
    rewrite H1, H2, H3, H4. reflexivity.
Qed.

(** X22. The detailed analysis written to the interpretation tab reads
    only keys the statistics dictionary never holds: its text depends on the
    model's name and interpretation alone.  For the growth model it always
    reports the rate [0.0000] and the doubling time [ln 2 / 0.0001],
    whatever the simulated rate. *)
Theorem analisis_detallado_sin_estadisticas :
  (forall nombre st1 st2 interpretacion,
     Paneles.texto_detallado nombre st1 interpretacion
     = Paneles.texto_detallado nombre st2 interpretacion) /\
  (forall st interpretacion,
     Paneles.texto_detallado "Crecimiento Exponencial" st interpretacion
     = fstr [fstr [interpretacion; "

ANÁLISIS DETALLADO:
"];
             fstr ["
• La población crece exponencialmente con una tasa de "; "0.0000"; ".
• Se duplica cada "; format_f 2 (ln 2 / 0.0001);
                   " unidades de tiempo.
• El crecimiento es ilimitado en este modelo teórico."]; "

RECOMENDACIONES:
• Utilice el botón 'Comparar' para analizar diferentes escenarios.
• Exporte los datos a Excel para un análisis más detallado.
• Ajuste los parámetros para observar cómo afectan al comportamiento del sistema."]) /\
  (forall sims s,
     Paneles.actualizar_interpretacion (sims ++ [s])
     = Some (Paneles.texto_detallado (SimuladorApp.nombre s) None
               (SimuladorApp.interpretacion s))) /\
  Paneles.actualizar_interpretacion [] = None.
Proof.
  assert (Hind : forall nombre st1 st2 interpretacion,
             Paneles.texto_detallado nombre st1 interpretacion
             = Paneles.texto_detallado nombre st2 interpretacion).
  { intros nombre st1 st2 interpretacion.
    unfold Paneles.texto_detallado. claves_ausentes. reflexivity. }
  split; [exact Hind|]. split; [|split].
  - intros st interpretacion.
    unfold Paneles.texto_detallado.
    cbn [String.eqb Ascii.eqb Bool.eqb]. claves_ausentes.
    rewrite (format_f_zero 3).
    unfold Paneles.np_true_divide.
    replace (Reqb 0.0001 0) with false by (symmetry; apply Reqb_false; lra).
    reflexivity.
  - intros sims s. unfold Paneles.actualizar_interpretacion.
    destruct sims as [|s0 rest]; simpl app.
    + simpl last. apply f_equal, Hind.
    + cbv beta iota zeta. rewrite last_last. apply f_equal, Hind.
  - reflexivity.
Qed.

(** *** The rows of the table *)

Lemma update_table_step_spec (n : nat) (sel : Paneles.filas) :
  Paneles.update_table_step n sel
  = match sel with
    | Paneles.Todas => 1%nat
    | _ => Nat.max 1 (n / filas_numero sel)
    end.
Proof. destruct sel; reflexivity. Qed.

Lemma stride_count (n k : nat) :
  (1 <= k)%nat ->
  let q := Nat.max 1 (n / k) in
  let c := ((n + q - 1) / q)%nat in
  (n < k -> c = n)%nat /\
  (k <= n -> k <= c < 2 * k)%nat /\
  (0 < n -> n mod k = 0 -> c = k)%nat.
Proof.
  intros Hk q c.
  assert (Hdm : n = (k * (n / k) + n mod k)%nat) by (apply Nat.div_mod; lia).
  assert (Hmod : (n mod k < k)%nat) by (apply Nat.mod_upper_bound; lia).
  split; [|split].
  - intros Hlt. assert (Hq0 : (n / k = 0)%nat) by (apply Nat.div_small; lia).
    unfold c, q. rewrite Hq0. simpl Nat.max.
    replace (n + 1 - 1)%nat with n by lia. apply Nat.div_1_r.
  - intros Hle.
    assert (Hq1 : (1 <= n / k)%nat).
    { apply Nat.div_le_lower_bound; lia. }
    assert (Hq : q = (n / k)%nat) by (unfold q; lia).
    unfold c. rewrite Hq. set (d := (n / k)%nat) in *. split.
    + apply Nat.div_le_lower_bound; [lia | nia].
    + apply Nat.Div0.div_lt_upper_bound; nia.
  - intros Hpos Hz. rewrite Hz in Hdm.
    assert (Hq1 : (1 <= n / k)%nat).
    { destruct (n / k)%nat; [nia | lia]. }
    assert (Hq : q = (n / k)%nat) by (unfold q; lia).
    unfold c. rewrite Hq. set (d := (n / k)%nat) in *.
    apply Nat.le_antisymm.
    + assert ((n + d - 1) / d < S k)%nat; [|lia].
      apply Nat.Div0.div_lt_upper_bound; nia.
    + apply Nat.div_le_lower_bound; [lia | nia].
Qed.

Lemma py_range_spec (n step : nat) :
  (1 <= step)%nat ->
  List.length (Paneles.py_range n step) = ((n + step - 1) / step)%nat /\
  forall j, (j < (n + step - 1) / step)%nat ->
    nth_error (Paneles.py_range n step) j = Some (j * step)%nat /\
    (j * step < n)%nat.
Proof.
  intros Hs; unfold Paneles.py_range. split.
  - rewrite length_map, length_seq. reflexivity.
  - intros j Hj. split.
    + rewrite nth_error_map, nth_error_seq.
      replace (j <? (n + step - 1) / step)%nat with true
        by (symmetry; apply Nat.ltb_lt; exact Hj).
      reflexivity.
    + assert (H1 : (step * ((n + step - 1) / step) <= n + step - 1)%nat)
        by (apply Nat.Div0.mul_div_le).
      nia.
Qed.

Lemma map_py_nth_error {A B : Type} (f : A -> py B) (xs : list A)
    (ys : list B) :
  map_py f xs = inr ys ->
  forall j x, nth_error xs j = Some x ->
    exists y, f x = inr y /\ nth_error ys j = Some y.
Proof.
  revert ys; induction xs as [|x0 xs IH]; intros ys H j x Hj.
  - destruct j; discriminate.
  - simpl in H. destruct (f x0) as [e | y0] eqn:Hy0; [discriminate|].
    cbn [bind] in H.
    destruct (map_py f xs) as [e | ys'] eqn:Hys'; [discriminate|].
    cbn [bind] in H. injection H as <-.
    destruct j as [|j].
    + injection Hj as <-. exists y0; split; [exact Hy0 | reflexivity].
    + simpl in Hj. destruct (IH ys' eq_refl j x Hj) as (y & Hy & Hn).
      exists y; split; [exact Hy | exact Hn].
Qed.

Lemma py_nth_ok (xs : list R) (i : nat) :
  (i < List.length xs)%nat -> Paneles.py_nth xs i = inr (nth i xs 0).
Proof.
  intros Hi; unfold Paneles.py_nth.
  rewrite (nth_error_nth' xs 0 Hi). reflexivity.
Qed.

(** X23. For time and value sequences of one length [n], the table is
    filled without an exception, row [j] showing sample [j * step] to two
    decimals.  With "Todas" every sample is shown.  With a number [k]
    selected, all [n] samples are shown when [n < k]; when [n >= k] the
    table shows at least [k] and fewer than [2 k] rows, and exactly [k] when
    [k] divides [n], as for the 1000 samples of a simulation. *)
Theorem update_table_filas (t_values y_values : list R) (sel : Paneles.filas) :
  List.length t_values = List.length y_values ->
  let n := List.length t_values in
  let step := Paneles.update_table_step n sel in
  exists rows,
    Paneles.update_table t_values y_values sel = inr rows /\
    (forall j, (j < List.length rows)%nat ->
       nth_error rows j
       = Some (format_f 2 (nth (j * step) t_values 0),
               format_f 2 (nth (j * step) y_values 0))) /\
    (sel = Paneles.Todas -> List.length rows = n) /\
    (sel <> Paneles.Todas ->
     let k := filas_numero sel in
     (n < k -> List.length rows = n)%nat /\
     (k <= n -> k <= List.length rows < 2 * k)%nat /\
     (n = 1000 -> List.length rows = k)%nat).
Proof.
  intros Hlen n step.
  assert (Hstep : (1 <= step)%nat).
  { unfold step. rewrite update_table_step_spec. destruct sel; lia. }
  destruct (py_range_spec n step Hstep) as [Hcount Hidx].
  set (f := fun i : nat =>
              t <- Paneles.py_nth t_values i ;;
              y <- Paneles.py_nth y_values i ;;
              ret (format_f 2 t, format_f 2 y)).
  assert (Hf : forall i, (i < n)%nat ->
                 f i = inr (format_f 2 (nth i t_values 0),
                            format_f 2 (nth i y_values 0))).
  { intros i Hi. unfold f.
    rewrite (py_nth_ok t_values) by exact Hi. cbn [bind].
    rewrite (py_nth_ok y_values) by (rewrite <- Hlen; exact Hi). reflexivity. }
  destruct (map_py_ok f (Paneles.py_range n step)) as (rows & Hrows & Hlr).
  { intros i Hi. apply In_nth_error in Hi as [j Hj].
    assert (Hjlt : (j < (n + step - 1) / step)%nat).
    { rewrite <- Hcount. apply nth_error_Some. congruence. }
    destruct (Hidx j Hjlt) as [Hnj Hlt].
    rewrite Hnj in Hj. injection Hj as <-.
    eexists; apply Hf; exact Hlt. }
  exists rows. split; [exact Hrows|].
  rewrite Hlr, Hcount. split; [|split].
  - intros j Hj. destruct (Hidx j Hj) as [Hnj Hlt].
    destruct (map_py_nth_error f _ rows Hrows j _ Hnj) as (y & Hy & Hn).
    rewrite Hf in Hy by exact Hlt. injection Hy as <-. exact Hn.
  - intros ->. unfold step. rewrite update_table_step_spec.
    replace (n + 1 - 1)%nat with n by lia. apply Nat.div_1_r.
  - intros Hsel k.
    assert (Hk : (1 <= k)%nat).
    { unfold k. destruct sel; simpl; try lia. congruence. }
    assert (Hq : step = Nat.max 1 (n / k)).
    { unfold step, k. rewrite update_table_step_spec.
      destruct sel; reflexivity. }
    rewrite Hq.
    destruct (stride_count n k Hk) as (Hsmall & Hbig & Hdiv).
    split; [exact Hsmall|]. split; [exact Hbig|].
    intros H1000. apply Hdiv; [lia|].
    rewrite H1000. unfold k. destruct sel; try reflexivity. congruence.
Qed.

Lemma update_table_filas_witness :
  exists rows,
    Paneles.update_table [0; 1; 2] [5; 6; 7] Paneles.Filas20 = inr rows /\
    List.length rows = 3%nat.
Proof.
  destruct (update_table_filas [0; 1; 2] [5; 6; 7] Paneles.Filas20 eq_refl)
    as (rows & Hrows & _ & _ & Hnum).
  exists rows; split; [exact Hrows|].
  assert (Hsel : Paneles.Filas20 <> Paneles.Todas) by discriminate.
  destruct (Hnum Hsel) as (Hsmall & _ & _).
  apply Hsmall. simpl. lia.
Defined.
